(** * Aurora Advisory: the consultation-request workflow of [app/routers/requests.py]

    The development embeds the request router together with the parts of
    [app/models.py], [app/schemas.py] and [app/deps.py] it relies on, and
    states the workflow properties of the specification over that embedding.
    The profile router [app/routers/profile.py] is embedded with its table.

    Conventions of the embedding.
    - Table [consultation_requests] is a finite map from the primary key [id]
      to the remaining columns; table [consultation_request_status_logs] is a
      list of rows in insertion order; table [users] is a list of rows.
    - Columns declared [String] hold strings: [status], [risk_profile],
      [old_status], [new_status] and [role] are stored by value.
    - Strings are sequences of code points below 256.
    - [Float] columns are IEEE-754 values ([spec_float]); integers are [Z];
      [DateTime] values are [Z] ticks, and every handler that writes receives
      the reading [now] of [datetime.utcnow].
    - A handler is a function from the committed database to a result and the
      committed database afterwards.  FastAPI resolves the dependencies of a
      route and validates its declared parameters before the body runs; both
      are the first steps of the embedded handler. *)

From Stdlib Require Import ZArith String Ascii List Bool Lia.
From Stdlib Require Import Floats.SpecFloat.
From stdpp Require Import base option list gmap strings sorting.

Local Open Scope string_scope.
Local Open Scope list_scope.
Local Open Scope Z_scope.

(** ** Strings as Python uses them *)

Module pystr.

(** [str.isspace] on the code points below 256. *)
Definition isspace (c : ascii) : bool :=
  let n := Z.of_N (N_of_ascii c) in
  ((9 <=? n) && (n <=? 13)) || ((28 <=? n) && (n <=? 32))
  || (n =? 133) || (n =? 160).

Fixpoint lstrip (s : string) : string :=
  match s with
  | EmptyString => EmptyString
  | String c s' => if isspace c then lstrip s' else s
  end.

Fixpoint rev_onto (s acc : string) : string :=
  match s with
  | EmptyString => acc
  | String c s' => rev_onto s' (String c acc)
  end.

Definition reverse (s : string) : string := rev_onto s EmptyString.

Definition rstrip (s : string) : string := reverse (lstrip (reverse s)).

(** [s.strip()] *)
Definition strip (s : string) : string := rstrip (lstrip s).

(** Truth value of a string: [bool(s)]. *)
Definition truthy (s : string) : bool :=
  match s with EmptyString => false | _ => true end.

(** [x in (a, b, ...)] for a tuple of strings. *)
Definition in_tuple (x : string) (t : list string) : bool :=
  existsb (String.eqb x) t.

End pystr.

(** ** SQL text matching *)

Module sql.

(** [lower()] of SQLite folds the 26 ASCII capitals only. *)
Definition lower_char (c : ascii) : ascii :=
  let n := N_of_ascii c in
  if ((65 <=? n) && (n <=? 90))%N then ascii_of_N (n + 32) else c.

(** [s LIKE pat]: [%] matches any run of characters, [_] exactly one. *)
Fixpoint like (pat s : string) : bool :=
  match pat with
  | EmptyString => match s with EmptyString => true | _ => false end
  | String p pat' =>
      if Ascii.eqb p "%"%char then
        (fix any (t : string) : bool :=
           like pat' t
           || match t with
              | EmptyString => false
              | String _ t' => any t'
              end) s
      else
        match s with
        | EmptyString => false
        | String c s' =>
            (Ascii.eqb p "_"%char || Ascii.eqb p c) && like pat' s'
        end
  end.

Fixpoint lower (s : string) : string :=
  match s with
  | EmptyString => EmptyString
  | String c s' => String (lower_char c) (lower s')
  end.

(** [col.ilike(pat)], rendered [lower(col) LIKE lower(pat)]; a NULL column
    makes the comparison NULL, which a WHERE clause treats as false. *)
Definition ilike (col : option string) (pat : string) : bool :=
  match col with
  | None => false
  | Some s => like (lower pat) (lower s)
  end.

End sql.

(** ** app/models.py *)

Module models.

Inductive RequestStatusEnum := pending | in_review | completed | cancelled.

(** [.value] of a member of [RequestStatusEnum]. *)
Definition value (s : RequestStatusEnum) : string :=
  match s with
  | pending => "pending"
  | in_review => "in_review"
  | completed => "completed"
  | cancelled => "cancelled"
  end.

(** [RequestStatusEnum(v)], the lookup of a member by value. *)
Definition RequestStatusEnum_of (v : string) : option RequestStatusEnum :=
  if String.eqb v "pending" then Some pending
  else if String.eqb v "in_review" then Some in_review
  else if String.eqb v "completed" then Some completed
  else if String.eqb v "cancelled" then Some cancelled
  else None.

Record User := {
  id : Z;
  email : string;
  password_hash : string;
  role : string;
}.

(** A row of [consultation_requests] without its primary key. *)
Record ConsultationRequest := {
  user_id : Z;
  goal : string;
  amount : spec_float;
  monthly_contribution : option spec_float;
  risk_profile : string;
  time_horizon_years : Z;
  notes : option string;
  status : string;
  created_at : Z;
  updated_at : Z;
}.

Record ConsultationRequestStatusLog := {
  log_id : Z;
  request_id : Z;
  changed_by_user_id : Z;
  old_status : option string;
  new_status : string;
  changed_at : Z;
}.

End models.

(** ** The persistence layer *)

Record DB := {
  users : list models.User;
  consultation_requests : gmap Z models.ConsultationRequest;
  consultation_request_status_logs : list models.ConsultationRequestStatusLog;
}.

Definition empty_db (us : list models.User) : DB :=
  {| users := us; consultation_requests := ∅;
     consultation_request_status_logs := [] |}.

(** SQLite gives a new row of an [INTEGER PRIMARY KEY] table the successor of
    the largest key in use, and 1 in an empty table. *)
Definition next_id (keys : list Z) : Z := 1 + foldr Z.max 0 keys.

Definition request_ids (db : DB) : list Z :=
  (map_to_list (consultation_requests db)).*1.

Definition log_ids (db : DB) : list Z :=
  models.log_id <$> consultation_request_status_logs db.

(** Rows of the audit table that belong to request [rid], oldest first. *)
Definition logs_of (rid : Z) (db : DB) : list models.ConsultationRequestStatusLog :=
  filter (λ l, models.request_id l = rid) (consultation_request_status_logs db).

(** The most recently written audit row of request [rid]. *)
Definition latest_log (rid : Z) (db : DB) : option models.ConsultationRequestStatusLog :=
  last (logs_of rid db).

(** [req.user]: the many-to-one relationship of a request to its owner. *)
Definition user_of (db : DB) (req : models.ConsultationRequest) : option models.User :=
  find (λ u, models.id u =? models.user_id req) (users db).

(** ** Errors and handler results *)

Inductive exn :=
| HTTPException (status_code : Z) (detail : string)
| RequestValidationError
| IntegrityError.

(** Status code of the response FastAPI builds from an exception. *)
Definition status_code_of (e : exn) : Z :=
  match e with
  | HTTPException c _ => c
  | RequestValidationError => 422
  | IntegrityError => 500
  end.

Inductive result (A : Type) :=
| Ok (a : A)
| Raise (e : exn).
Arguments Ok {A} a.
Arguments Raise {A} e.

Definition M (A : Type) : Type := DB → result A * DB.

Definition ret {A} (a : A) : M A := λ db, (Ok a, db).
Definition raise {A} (e : exn) : M A := λ db, (Raise e, db).
Definition bind {A B} (m : M A) (k : A → M B) : M B :=
  λ db, match m db with
        | (Ok a, db') => k a db'
        | (Raise e, db') => (Raise e, db')
        end.
Definition query {A} (q : DB → A) : M A := λ db, (Ok (q db), db).

Notation "x <- m ;; k" := (bind m (λ x, k))
  (at level 100, m at next level, right associativity).
Notation "m ;;; k" := (bind m (λ _, k))
  (at level 100, right associativity).

(** ** app/schemas.py *)

Module schemas.

Inductive RiskProfile := prudente | equilibrato | dinamico.

Definition RiskProfile_value (r : RiskProfile) : string :=
  match r with
  | prudente => "prudente"
  | equilibrato => "equilibrato"
  | dinamico => "dinamico"
  end.

Definition RiskProfile_of (v : string) : option RiskProfile :=
  if String.eqb v "prudente" then Some prudente
  else if String.eqb v "equilibrato" then Some equilibrato
  else if String.eqb v "dinamico" then Some dinamico
  else None.

Inductive RequestStatus := pending | in_review | completed | cancelled.

Definition value (s : RequestStatus) : string :=
  match s with
  | pending => "pending"
  | in_review => "in_review"
  | completed => "completed"
  | cancelled => "cancelled"
  end.

Definition RequestStatus_of (v : string) : option RequestStatus :=
  if String.eqb v "pending" then Some pending
  else if String.eqb v "in_review" then Some in_review
  else if String.eqb v "completed" then Some completed
  else if String.eqb v "cancelled" then Some cancelled
  else None.

(** [Field(ge=0)] on a float: [x >= 0], false on NaN. *)
Definition float_ge0 (x : spec_float) : bool := SFleb (S754_zero false) x.

(** [Field(gt=0)] on a float: [x > 0]. *)
Definition float_gt0 (x : spec_float) : bool := SFltb (S754_zero false) x.

(** A request body after JSON decoding and coercion to the field types, before
    the field constraints and the enumerations are checked. *)
Record body := {
  body_goal : string;
  body_amount : spec_float;
  body_monthly_contribution : option spec_float;
  body_risk_profile : string;
  body_time_horizon_years : Z;
  body_notes : option string;
}.

(** [ConsultationRequestCreate], which adds nothing to [ConsultationRequestBase]. *)
Record ConsultationRequestCreate := {
  goal : string;
  amount : spec_float;
  monthly_contribution : option spec_float;
  risk_profile : RiskProfile;
  time_horizon_years : Z;
  notes : option string;
}.

(** Validation of [ConsultationRequestBase]: [goal] carries no constraint,
    [amount] has [ge=0], [monthly_contribution] has [ge=0] when present,
    [risk_profile] must name a member of [RiskProfile], and
    [time_horizon_years] has [ge=1, le=60]. *)
Definition validate_ConsultationRequestCreate (b : body)
  : option ConsultationRequestCreate :=
  if negb (float_ge0 (body_amount b)) then None
  else if negb (from_option float_ge0 true (body_monthly_contribution b)) then None
  else
    match RiskProfile_of (body_risk_profile b) with
    | None => None
    | Some rp =>
        if negb ((1 <=? body_time_horizon_years b)
                 && (body_time_horizon_years b <=? 60)) then None
        else Some {| goal := body_goal b;
                     amount := body_amount b;
                     monthly_contribution := body_monthly_contribution b;
                     risk_profile := rp;
                     time_horizon_years := body_time_horizon_years b;
                     notes := body_notes b |}
    end.

(** [ConsultationRequestStatusUpdate]: a body with the one field [status]. *)
Definition validate_ConsultationRequestStatusUpdate (status : string)
  : option RequestStatus := RequestStatus_of status.

Record ConsultationRequestOut := {
  out_id : Z;
  out_user_id : Z;
  out_user_email : option string;
  out_user_role : option string;
  out_goal : string;
  out_amount : spec_float;
  out_monthly_contribution : option spec_float;
  out_risk_profile : string;
  out_time_horizon_years : Z;
  out_notes : option string;
  out_status : string;
  out_created_at : Z;
  out_updated_at : Z;
}.

Record AdminRequestListOut := {
  items : list ConsultationRequestOut;
  total : Z;
}.

End schemas.

(** ** app/deps.py *)

Module deps.

Definition require_advisor (current_user : models.User) : M models.User :=
  if negb (pystr.in_tuple (models.role current_user) ["advisor"; "admin"])
  then raise (HTTPException 403 "Non autorizzato.")
  else ret current_user.

End deps.

(** ** The session operations the router uses *)

Module session.

(** [db.query(ConsultationRequest).filter(id == request_id).first()] *)
Definition request_by_id (request_id : Z) : M (option models.ConsultationRequest) :=
  query (λ db, consultation_requests db !! request_id).

(** [db.query(ConsultationRequest)
       .filter(id == request_id, user_id == owner_id).first()] *)
Definition request_by_id_and_owner (request_id owner_id : Z)
  : M (option models.ConsultationRequest) :=
  query (λ db,
    match consultation_requests db !! request_id with
    | Some req => if models.user_id req =? owner_id then Some req else None
    | None => None
    end).

(** [db.add(new_req); db.commit(); db.refresh(new_req)] for a new request:
    the INSERT assigns the primary key, which the refresh reads back. *)
Definition add_request (new_req : models.ConsultationRequest) : M Z :=
  λ db,
    let new_id := next_id (request_ids db) in
    (Ok new_id,
     {| users := users db;
        consultation_requests := <[new_id := new_req]> (consultation_requests db);
        consultation_request_status_logs := consultation_request_status_logs db |}).

(** The effect of [req.status = v] on the row at flush time.  The unit of work
    emits an UPDATE only when the attribute differs from the value it loaded,
    and the UPDATE sets [updated_at] through its [onupdate] default. *)
Definition with_status (v : string) (now : Z) (req : models.ConsultationRequest)
  : models.ConsultationRequest :=
  if String.eqb (models.status req) v then req
  else {| models.user_id := models.user_id req;
          models.goal := models.goal req;
          models.amount := models.amount req;
          models.monthly_contribution := models.monthly_contribution req;
          models.risk_profile := models.risk_profile req;
          models.time_horizon_years := models.time_horizon_years req;
          models.notes := models.notes req;
          models.status := v;
          models.created_at := models.created_at req;
          models.updated_at := now |}.

(** [req.status = v; db.add(req); log = ConsultationRequestStatusLog(...);
    db.add(log); db.commit(); db.refresh(req)]: one transaction that writes
    the status of request [request_id] and appends one audit row.  The
    refreshed request is returned. *)
Definition set_status_and_log (request_id : Z) (req : models.ConsultationRequest)
    (v : string) (changed_by : Z) (old_status new_status : string) (now : Z)
  : M models.ConsultationRequest :=
  λ db,
    let req' := with_status v now req in
    let log := {| models.log_id := next_id (log_ids db);
                  models.request_id := request_id;
                  models.changed_by_user_id := changed_by;
                  models.old_status := Some old_status;
                  models.new_status := new_status;
                  models.changed_at := now |} in
    (Ok req',
     {| users := users db;
        consultation_requests := <[request_id := req']> (consultation_requests db);
        consultation_request_status_logs :=
          consultation_request_status_logs db ++ [log] |}).

(** [db.delete(req); db.commit()].  [ConsultationRequest.status_logs] is the
    backref of [ConsultationRequestStatusLog.request] and is declared without
    a delete cascade (the relationship [User.requests] has
    [cascade="all, delete-orphan"]; this one does not).  Before the parent row
    is removed the unit of work therefore detaches its audit rows by writing
    NULL to their [request_id]; that column is [nullable=False], so the flush
    fails with an integrity error as soon as the request has an audit row, and
    the transaction is rolled back.  Without audit rows the row is removed. *)
Definition delete_request (request_id : Z) : M unit :=
  λ db,
    if existsb (λ l, models.request_id l =? request_id)
               (consultation_request_status_logs db)
    then (Raise IntegrityError, db)
    else (Ok tt,
          {| users := users db;
             consultation_requests := delete request_id (consultation_requests db);
             consultation_request_status_logs := consultation_request_status_logs db |}).

(** [ORDER BY created_at DESC] over rows with their keys.  The source leaves
    the order of rows with equal [created_at] to the store; the embedding
    lists them by ascending key. *)
Definition created_desc : relation (Z * models.ConsultationRequest) :=
  λ a b, models.created_at b.2 < models.created_at a.2
         ∨ (models.created_at a.2 = models.created_at b.2 ∧ a.1 ≤ b.1).

#[global] Instance created_desc_dec : RelDecision created_desc.
Proof. intros a b. unfold created_desc. apply _. Defined.

Definition order_by_created_at_desc (rows : list (Z * models.ConsultationRequest))
  : list (Z * models.ConsultationRequest) :=
  merge_sort created_desc rows.

(** [ORDER BY changed_at DESC] over audit rows. *)
Definition changed_desc : relation models.ConsultationRequestStatusLog :=
  λ a b, models.changed_at b ≤ models.changed_at a.

#[global] Instance changed_desc_dec : RelDecision changed_desc.
Proof. intros a b. unfold changed_desc. apply _. Defined.

Definition order_by_changed_at_desc (rows : list models.ConsultationRequestStatusLog)
  : list models.ConsultationRequestStatusLog :=
  merge_sort changed_desc rows.

End session.

(** ** app/routers/requests.py *)

Module requests.

Import pystr.

(** [_to_out]: the response of a request row, with the owner's email and role
    when the relationship [req.user] resolves. *)
Definition _to_out (request_id : Z) (req : models.ConsultationRequest)
    (user : option models.User) : schemas.ConsultationRequestOut :=
  {| schemas.out_id := request_id;
     schemas.out_user_id := models.user_id req;
     schemas.out_user_email := models.email <$> user;
     schemas.out_user_role := models.role <$> user;
     schemas.out_goal := models.goal req;
     schemas.out_amount := models.amount req;
     schemas.out_monthly_contribution := models.monthly_contribution req;
     schemas.out_risk_profile := models.risk_profile req;
     schemas.out_time_horizon_years := models.time_horizon_years req;
     schemas.out_notes := models.notes req;
     schemas.out_status := models.status req;
     schemas.out_created_at := models.created_at req;
     schemas.out_updated_at := models.updated_at req |}.

(** [POST /requests] *)
Definition create_request (payload : schemas.body) (current_user : models.User)
    (now : Z) : M schemas.ConsultationRequestOut :=
  match schemas.validate_ConsultationRequestCreate payload with
  | None => raise RequestValidationError
  | Some payload =>
      let new_req :=
        {| models.user_id := models.id current_user;
           models.goal := strip (schemas.goal payload);
           models.amount := schemas.amount payload;
           models.monthly_contribution := schemas.monthly_contribution payload;
           models.risk_profile :=
             schemas.RiskProfile_value (schemas.risk_profile payload);
           models.time_horizon_years := schemas.time_horizon_years payload;
           models.notes :=
             match schemas.notes payload with
             | Some n => if truthy n then Some (strip n) else None
             | None => None
             end;
           models.status := models.value models.pending;
           models.created_at := now;
           models.updated_at := now |} in
      new_id <- session.add_request new_req ;;
      ret (_to_out new_id new_req (Some current_user))
  end.


(** [GET /requests/me/{request_id}] *)
Definition get_my_request (request_id : Z) (current_user : models.User)
  : M schemas.ConsultationRequestOut :=
  req <- session.request_by_id request_id ;;
  match req with
  | None => raise (HTTPException 404 "Richiesta non trovata.")
  | Some req =>
      if negb (models.user_id req =? models.id current_user)
      then raise (HTTPException 403 "Non autorizzato.")
      else
        db <- query id ;;
        ret (_to_out request_id req (user_of db req))
  end.

Record CancelOut := {
  ok : bool;
  old_status : string;
  new_status : string;
}.

(** [PATCH /requests/me/{request_id}] *)
Definition cancel_my_request (request_id : Z) (current_user : models.User)
    (now : Z) : M CancelOut :=
  req <- session.request_by_id_and_owner request_id (models.id current_user) ;;
  match req with
  | None => raise (HTTPException 404 "Richiesta non trovata.")
  | Some req =>
      let curr_status := models.status req in
      if in_tuple curr_status ["in_review"; "completed"]
      then raise (HTTPException 400
        "Non puoi cancellare una richiesta già in lavorazione o completata")
      else if String.eqb curr_status "cancelled"
      then ret {| ok := true; old_status := "cancelled"; new_status := "cancelled" |}
      else
        let old_status := curr_status in
        session.set_status_and_log request_id req
          (models.value models.cancelled)
          (models.id current_user) old_status "cancelled" now ;;;
        ret {| ok := true; old_status := old_status; new_status := "cancelled" |}
  end.

(** [DELETE /requests/me/{request_id}] *)
Definition delete_my_request (request_id : Z) (current_user : models.User)
  : M unit :=
  req <- session.request_by_id_and_owner request_id (models.id current_user) ;;
  match req with
  | None => raise (HTTPException 404 "Richiesta non trovata")
  | Some req =>
      if in_tuple (models.status req) ["in_review"; "completed"]
      then raise (HTTPException 400
        "Non puoi eliminare una richiesta già in lavorazione o completata")
      else session.delete_request request_id
  end.

(** [or_(goal.ilike(qq), notes.ilike(qq), User.email.ilike(qq))] on a request
    joined to its owner; the inner join drops a request without one. *)
Definition matches_search (db : DB) (qq : string)
    (req : models.ConsultationRequest) : bool :=
  match user_of db req with
  | None => false
  | Some u =>
      sql.ilike (Some (models.goal req)) qq
      || sql.ilike (models.notes req) qq
      || sql.ilike (Some (models.email u)) qq
  end.

(** The rows [GET /requests] selects.  The status filter is applied to the
    initial query; a non-blank [q] then assigns a query built anew from
    [db.query(ConsultationRequest)], joined to [users] and filtered on the
    pattern [%q%]. *)
Definition list_all_query (status : option models.RequestStatusEnum)
    (q : option string) (db : DB) : list (Z * models.ConsultationRequest) :=
  let query0 := map_to_list (consultation_requests db) in
  let query1 :=
    match status with
    | Some st => filter (λ r, models.status r.2 = models.value st) query0
    | None => query0
    end in
  match q with
  | Some q' =>
      if truthy q' && truthy (strip q') then
        let qq := "%" +:+ strip q' +:+ "%" in
        filter (λ r, matches_search db qq r.2 = true)
               (map_to_list (consultation_requests db))
      else query1
  | None => query1
  end.

(** [GET /requests] *)
Definition list_all_requests (status : option string) (q : option string)
    (skip limit : Z) (current_user : models.User)
  : M schemas.AdminRequestListOut :=
  current_user <- deps.require_advisor current_user ;;
  match
    (match status with
     | None => Some None
     | Some v => Some <$> models.RequestStatusEnum_of v
     end)
  with
  | None => raise RequestValidationError
  | Some status =>
      if negb ((0 <=? skip) && (1 <=? limit) && (limit <=? 200))
      then raise RequestValidationError
      else
        db <- query id ;;
        let rows := list_all_query status q db in
        let total := Z.of_nat (length rows) in
        let reqs :=
          take (Z.to_nat limit)
               (drop (Z.to_nat skip) (session.order_by_created_at_desc rows)) in
        ret {| schemas.items := (λ r, _to_out r.1 r.2 (user_of db r.2)) <$> reqs;
               schemas.total := total |}
  end.

(** [RequestStatusEnum(payload.status.value)]: the two enumerations have the
    same four values, so the lookup by value always finds the member. *)
Definition to_model_status (s : schemas.RequestStatus) : models.RequestStatusEnum :=
  match s with
  | schemas.pending => models.pending
  | schemas.in_review => models.in_review
  | schemas.completed => models.completed
  | schemas.cancelled => models.cancelled
  end.

(** [PATCH /requests/{request_id}] *)
Definition update_request_status (request_id : Z) (payload : string)
    (current_user : models.User) (now : Z) : M schemas.ConsultationRequestOut :=
  current_user <- deps.require_advisor current_user ;;
  match schemas.validate_ConsultationRequestStatusUpdate payload with
  | None => raise RequestValidationError
  | Some payload_status =>
      req <- session.request_by_id request_id ;;
      match req with
      | None => raise (HTTPException 404 "Richiesta non trovata.")
      | Some req =>
          let old_status := models.status req in
          req <- session.set_status_and_log request_id req
                   (models.value (to_model_status payload_status))
                   (models.id current_user) old_status
                   (schemas.value payload_status) now ;;
          db <- query id ;;
          ret (_to_out request_id req (user_of db req))
      end
  end.

(** [GET /requests/{request_id}/history] *)
Definition get_request_history (request_id : Z) (current_user : models.User)
  : M (list models.ConsultationRequestStatusLog) :=
  req <- session.request_by_id request_id ;;
  match req with
  | None => raise (HTTPException 404 "Richiesta non trovata")
  | Some req =>
      if negb (in_tuple (models.role current_user) ["advisor"; "admin"])
         && negb (models.user_id req =? models.id current_user)
      then raise (HTTPException 403 "Non autorizzato")
      else
        query (λ db, session.order_by_changed_at_desc (logs_of request_id db))
  end.

End requests.

(** ** Vocabulary of the specification *)

Module workflow.

Import requests.

(** The role test of [require_advisor] and of the history route. *)
Definition is_advisor (u : models.User) : bool :=
  pystr.in_tuple (models.role u) ["advisor"; "admin"].

(** The request [request_id], when it exists. *)
Definition request (db : DB) (request_id : Z) : option models.ConsultationRequest :=
  consultation_requests db !! request_id.

(** Referential integrity of the audit table: the foreign key
    [request_id -> consultation_requests.id]. *)
Definition logs_reference_requests (db : DB) : Prop :=
  Forall (λ l, is_Some (request db (models.request_id l)))
         (consultation_request_status_logs db).

(** A request agrees with its audit trail: its status is the [new_status] of
    its latest audit row, and ["pending"] when it has none. *)
Definition agrees_with_log (db : DB) (request_id : Z)
    (req : models.ConsultationRequest) : Prop :=
  match latest_log request_id db with
  | Some l => models.new_status l = models.status req
  | None => models.status req = "pending"
  end.

Definition reconciled (db : DB) : Prop :=
  ∀ request_id req,
    request db request_id = Some req → agrees_with_log db request_id req.

Definition consistent (db : DB) : Prop :=
  logs_reference_requests db ∧ reconciled db.

(** The operations of the workflow engine, with their caller and clock. *)
Inductive op :=
| create (payload : schemas.body) (owner : models.User) (now : Z)
| cancel (request_id : Z) (requester : models.User) (now : Z)
| advisorSetStatus (request_id : Z) (newStatus : string)
    (advisor : models.User) (now : Z).

(** The committed database after one operation, whatever its outcome. *)
Definition apply_op (db : DB) (o : op) : DB :=
  match o with
  | create payload owner now => (create_request payload owner now db).2
  | cancel request_id requester now =>
      (cancel_my_request request_id requester now db).2
  | advisorSetStatus request_id newStatus advisor now =>
      (update_request_status request_id newStatus advisor now db).2
  end.

Definition run (ops : list op) (db : DB) : DB := foldl apply_op db ops.

(** States the service reaches from empty request and audit tables through
    its four mutating routes, failed calls included. *)
Inductive reachable (us : list models.User) : DB → Prop :=
| reachable_empty : reachable us (empty_db us)
| reachable_op db o :
    reachable us db → reachable us (apply_op db o)
| reachable_delete db request_id requester :
    reachable us db →
    reachable us (delete_my_request request_id requester db).2.

(** What a non-owner may learn from a client route: the outward signal. *)
Definition signal {A} (r : result A * DB) : option Z :=
  match r.1 with
  | Ok _ => None
  | Raise e => Some (status_code_of e)
  end.

(** The filters of [GET /requests] as the specification words them: status
    equality and the search text, each applied when supplied. *)
Definition satisfies_filters (db : DB) (status : option models.RequestStatusEnum)
    (q : option string) (req : models.ConsultationRequest) : bool :=
  match status with
  | Some st => String.eqb (models.status req) (models.value st)
  | None => true
  end
  && match q with
     | Some q' =>
         if pystr.truthy q' && pystr.truthy (pystr.strip q')
         then matches_search db ("%" +:+ pystr.strip q' +:+ "%") req
         else true
     | None => true
     end.

End workflow.

(** ** Sample data *)

Module sample.

Definition alice : models.User :=
  {| models.id := 1; models.email := "alice@example.com";
     models.password_hash := "x"; models.role := "client" |}.

Definition bob : models.User :=
  {| models.id := 2; models.email := "bob@example.com";
     models.password_hash := "x"; models.role := "client" |}.

Definition carla : models.User :=
  {| models.id := 3; models.email := "carla@example.com";
     models.password_hash := "x"; models.role := "advisor" |}.

Definition db0 : DB := empty_db [alice; bob; carla].

(** The binary64 number 1000.0. *)
Definition thousand : spec_float := S754_finite false 8796093022208000 (-43).

(** amount = 1000.0, risk = equilibrato, horizon = 10 *)
Definition house : schemas.body :=
  {| schemas.body_goal := "Comprare casa";
     schemas.body_amount := thousand;
     schemas.body_monthly_contribution := None;
     schemas.body_risk_profile := "equilibrato";
     schemas.body_time_horizon_years := 10;
     schemas.body_notes := None |}.

(** The same body with amount = 0.0. *)
Definition house_zero_amount : schemas.body :=
  {| schemas.body_goal := "Comprare casa";
     schemas.body_amount := S754_zero false;
     schemas.body_monthly_contribution := None;
     schemas.body_risk_profile := "equilibrato";
     schemas.body_time_horizon_years := 10;
     schemas.body_notes := None |}.

(** The same body with a blank goal. *)
Definition house_blank_goal : schemas.body :=
  {| schemas.body_goal := "  ";
     schemas.body_amount := thousand;
     schemas.body_monthly_contribution := None;
     schemas.body_risk_profile := "equilibrato";
     schemas.body_time_horizon_years := 10;
     schemas.body_notes := None |}.

(** The row of alice's request, created at tick 100, in a given status and
    with a given time of last update. *)
Definition house_request (status : string) (updated_at : Z)
  : models.ConsultationRequest :=
  {| models.user_id := 1;
     models.goal := "Comprare casa";
     models.amount := thousand;
     models.monthly_contribution := None;
     models.risk_profile := "equilibrato";
     models.time_horizon_years := 10;
     models.notes := None;
     models.status := status;
     models.created_at := 100;
     models.updated_at := updated_at |}.

(** alice has created request 1 at tick 100. *)
Definition db_created : DB := (requests.create_request house alice 100 db0).2.

(** carla has then moved request 1 to in_review at tick 200. *)
Definition db_in_review : DB :=
  (requests.update_request_status 1 "in_review" carla 200 db_created).2.

(** alice has instead cancelled request 1 at tick 200. *)
Definition db_cancelled : DB :=
  (requests.cancel_my_request 1 alice 200 db_created).2.

End sample.

(** ** Route calls and their effects *)

Module calls.

Import requests workflow.

(** A call of one of the four routes that write. *)
Inductive call :=
| workflow_call (o : op)
| delete_call (request_id : Z) (requester : models.User).

(** The committed database after a call, whatever its outcome. *)
Definition apply_call (db : DB) (c : call) : DB :=
  match c with
  | workflow_call o => apply_op db o
  | delete_call request_id requester =>
      (delete_my_request request_id requester db).2
  end.

(** The authenticated user of a call. *)
Definition caller (c : call) : models.User :=
  match c with
  | workflow_call (create _ owner _) => owner
  | workflow_call (cancel _ requester _) => requester
  | workflow_call (advisorSetStatus _ _ advisor _) => advisor
  | delete_call _ requester => requester
  end.

Definition status_values : list string :=
  ["pending"; "in_review"; "completed"; "cancelled"].

Definition risk_values : list string :=
  ["prudente"; "equilibrato"; "dinamico"].

(** The column constraints a stored request is meant to meet, as far as the
    create schema checks them. *)
Definition valid_row (req : models.ConsultationRequest) : Prop :=
  models.status req ∈ status_values
  ∧ models.risk_profile req ∈ risk_values
  ∧ 1 ≤ models.time_horizon_years req ≤ 60
  ∧ schemas.float_ge0 (models.amount req) = true
  ∧ from_option schemas.float_ge0 true (models.monthly_contribution req) = true.

(** The write a call performs, when it performs one. *)
Inductive effect (db : DB) : call → DB → Prop :=
| effect_none c : effect db c db
| effect_created payload owner now new_req :
    models.user_id new_req = models.id owner →
    models.status new_req = "pending" →
    models.created_at new_req = now →
    models.updated_at new_req = now →
    valid_row new_req →
    effect db (workflow_call (create payload owner now))
           (session.add_request new_req db).2
| effect_cancelled request_id requester now req :
    request db request_id = Some req →
    models.user_id req = models.id requester →
    models.status req ∉ ["in_review"; "completed"; "cancelled"] →
    effect db (workflow_call (cancel request_id requester now))
           (session.set_status_and_log request_id req "cancelled"
              (models.id requester) (models.status req) "cancelled" now db).2
| effect_patched request_id advisor now req s :
    is_advisor advisor = true →
    request db request_id = Some req →
    effect db
      (workflow_call (advisorSetStatus request_id (schemas.value s) advisor now))
      (session.set_status_and_log request_id req (schemas.value s)
         (models.id advisor) (models.status req) (schemas.value s) now db).2
| effect_deleted request_id requester req :
    request db request_id = Some req →
    models.user_id req = models.id requester →
    models.status req ∉ ["in_review"; "completed"] →
    logs_of request_id db = [] →
    effect db (delete_call request_id requester)
           {| users := users db;
              consultation_requests :=
                base.delete request_id (consultation_requests db);
              consultation_request_status_logs :=
                consultation_request_status_logs db |}.

(** An audit trail as a chain: each row starts from the status the previous
    row ended in, the first one from [prev]. *)
Fixpoint chained (prev : string) (ls : list models.ConsultationRequestStatusLog)
  : Prop :=
  match ls with
  | [] => True
  | l :: ls' =>
      models.old_status l = Some prev ∧ chained (models.new_status l) ls'
  end.

(** The two fields a status write may change are put aside. *)
Definition same_content (r r' : models.ConsultationRequest) : Prop :=
  models.user_id r' = models.user_id r
  ∧ models.goal r' = models.goal r
  ∧ models.amount r' = models.amount r
  ∧ models.monthly_contribution r' = models.monthly_contribution r
  ∧ models.risk_profile r' = models.risk_profile r
  ∧ models.time_horizon_years r' = models.time_horizon_years r
  ∧ models.notes r' = models.notes r
  ∧ models.created_at r' = models.created_at r.

End calls.

(** ** Search text *)

Module search.



End search.

(** ** app/routers/profile.py with the table it uses *)

Module profile.

(** A row of [client_profiles]; [date_of_birth] is a [String] column that
    holds the text of a date. *)
Record ClientProfile := {
  id : Z;
  user_id : Z;
  first_name : string;
  last_name : string;
  date_of_birth : option string;
  phone : option string;
  income : option Z;
  main_goal : option string;
  time_horizon_years : option Z;
  risk_profile : option string;
  updated_at : Z;
}.

Section routes.

(** [datetime.date], and the text the database driver stores for one. *)
Context {date : Type} (isoformat : date → string).

(** [ClientProfileCreateUpdate], which adds nothing to [ClientProfileBase];
    its fields carry no constraint beyond their types. *)
Record ClientProfileCreateUpdate := {
  in_first_name : string;
  in_last_name : string;
  in_date_of_birth : option date;
  in_phone : option string;
  in_income : option Z;
  in_main_goal : option string;
  in_time_horizon_years : option Z;
  in_risk_profile : option string;
}.

(** A handler on the table [client_profiles], rows in insertion order. *)
Definition P (A : Type) : Type :=
  list ClientProfile → result A * list ClientProfile.

(** [db.query(ClientProfile).filter(user_id == current_user.id).first()] *)
Definition profile_of (owner_id : Z) (rows : list ClientProfile)
  : option ClientProfile :=
  find (λ p, user_id p =? owner_id) rows.


(** Whether assigning the fields of [profile_in] changes a loaded row, which
    decides whether the flush emits an UPDATE.  A date never compares equal
    to the text the row holds. *)
Definition changes (profile_in : ClientProfileCreateUpdate)
    (profile : ClientProfile) : bool :=
  negb (String.eqb (in_first_name profile_in) (first_name profile))
  || negb (String.eqb (in_last_name profile_in) (last_name profile))
  || match in_date_of_birth profile_in, date_of_birth profile with
     | None, None => false
     | _, _ => true
     end
  || negb (bool_decide (in_phone profile_in = phone profile))
  || negb (bool_decide (in_income profile_in = income profile))
  || negb (bool_decide (in_main_goal profile_in = main_goal profile))
  || negb (bool_decide (in_time_horizon_years profile_in
                        = time_horizon_years profile))
  || negb (bool_decide (in_risk_profile profile_in = risk_profile profile)).

(** [POST /me/profile]: the profile of the caller is created when missing and
    otherwise overwritten field by field; [updated_at] is set by the
    database, on INSERT and on UPDATE.  The refreshed row is returned. *)
Definition upsert_my_profile (profile_in : ClientProfileCreateUpdate)
    (current_user : models.User) (now : Z) : P ClientProfile :=
  λ rows,
    match profile_of (models.id current_user) rows with
    | None =>
        let profile :=
          {| id := next_id (id <$> rows);
             user_id := models.id current_user;
             first_name := in_first_name profile_in;
             last_name := in_last_name profile_in;
             date_of_birth := isoformat <$> in_date_of_birth profile_in;
             phone := in_phone profile_in;
             income := in_income profile_in;
             main_goal := in_main_goal profile_in;
             time_horizon_years := in_time_horizon_years profile_in;
             risk_profile := in_risk_profile profile_in;
             updated_at := now |} in
        (Ok profile, rows ++ [profile])
    | Some old =>
        let profile :=
          {| id := id old;
             user_id := user_id old;
             first_name := in_first_name profile_in;
             last_name := in_last_name profile_in;
             date_of_birth := isoformat <$> in_date_of_birth profile_in;
             phone := in_phone profile_in;
             income := in_income profile_in;
             main_goal := in_main_goal profile_in;
             time_horizon_years := in_time_horizon_years profile_in;
             risk_profile := in_risk_profile profile_in;
             updated_at :=
               if changes profile_in old then now else updated_at old |} in
        (Ok profile,
         (λ row, if id row =? id old then profile else row) <$> rows)
    end.


End routes.

End profile.

(** * Properties *)

Import requests workflow.

(** ** Auxiliary facts *)

Lemma foldr_max_ge (ks : list Z) (k : Z) : k ∈ ks → k ≤ foldr Z.max 0 ks.
Proof.
  induction ks as [|k' ks IH]; intros Hk.
  - by apply elem_of_nil in Hk.
  - apply elem_of_cons in Hk as [->|Hk]; simpl; [lia|].
    specialize (IH Hk). lia.
Qed.

Lemma next_id_fresh (db : DB) : request db (next_id (request_ids db)) = None.
Proof.
  unfold request. destruct (consultation_requests db !! _) as [req|] eqn:E; [|done].
  exfalso. apply elem_of_map_to_list in E.
  assert (next_id (request_ids db) ∈ request_ids db) as Hin.
  { unfold request_ids at 2. apply list_elem_of_fmap. by eexists (_, _). }
  apply foldr_max_ge in Hin. unfold next_id in Hin at 1. lia.
Qed.

Lemma in_tuple_blocked (s : string) :
  pystr.in_tuple s ["in_review"; "completed"] = true ↔
  s = "in_review" ∨ s = "completed".
Proof.
  unfold pystr.in_tuple. cbn [existsb].
  rewrite orb_false_r, orb_true_iff. by rewrite !String.eqb_eq.
Qed.

Lemma owner_lookup (db : DB) (request_id : Z) (u : models.User) req :
  request db request_id = Some req → models.user_id req = models.id u →
  session.request_by_id_and_owner request_id (models.id u) db = (Ok (Some req), db).
Proof.
  unfold request, session.request_by_id_and_owner, query. intros -> ->.
  by rewrite Z.eqb_refl.
Qed.

(** C3. Cancel by the owner of a request that is in_review or completed
    fails with HTTP 400 (InvalidTransitionError) and the database, hence the
    request and the audit log, is left as it was. *)
Theorem cancel_in_review_or_completed_rejected
    (request_id : Z) (owner : models.User) (now : Z) (db : DB)
    (req : models.ConsultationRequest) :
  request db request_id = Some req →
  models.user_id req = models.id owner →
  models.status req = "in_review" ∨ models.status req = "completed" →
  cancel_my_request request_id owner now db =
    (Raise (HTTPException 400
       "Non puoi cancellare una richiesta già in lavorazione o completata"), db).
Proof.
  intros Hreq Hown Hst. unfold cancel_my_request, bind.
  rewrite (owner_lookup _ _ _ _ Hreq Hown).
  apply in_tuple_blocked in Hst. by rewrite Hst.
Qed.

Lemma cancel_in_review_or_completed_rejected_witness :
  cancel_my_request 1 sample.alice 300 sample.db_in_review =
    (Raise (HTTPException 400
       "Non puoi cancellare una richiesta già in lavorazione o completata"),
     sample.db_in_review).
Proof.
  eapply cancel_in_review_or_completed_rejected.
  - vm_compute. reflexivity.
  - reflexivity.
  - left. reflexivity.
Defined.

Lemma in_tuple_not_blocked (s : string) :
  s ≠ "in_review" → s ≠ "completed" →
  pystr.in_tuple s ["in_review"; "completed"] = false.
Proof.
  intros H1 H2. apply not_true_is_false. rewrite in_tuple_blocked. tauto.
Qed.

(** C4. Cancel is idempotent.  On a request already cancelled, cancel by the
    owner succeeds with old_status = new_status = cancelled and writes
    nothing.  Hence on a pending request the first cancel appends exactly one
    audit row (pending to cancelled, by the owner) and the second cancel
    answers cancelled/cancelled and appends none. *)
Theorem cancel_idempotent
    (request_id : Z) (owner : models.User) (db : DB)
    (req : models.ConsultationRequest) :
  request db request_id = Some req →
  models.user_id req = models.id owner →
  (models.status req = "cancelled" →
   ∀ now, cancel_my_request request_id owner now db =
     (Ok {| ok := true; old_status := "cancelled"; new_status := "cancelled" |},
      db))
  ∧ (models.status req = "pending" →
     ∀ now1 now2,
       let first := cancel_my_request request_id owner now1 db in
       let second := cancel_my_request request_id owner now2 first.2 in
       first.1 =
         Ok {| ok := true; old_status := "pending"; new_status := "cancelled" |}
       ∧ second.1 =
         Ok {| ok := true; old_status := "cancelled"; new_status := "cancelled" |}
       ∧ second.2 = first.2
       ∧ ∃ log,
           consultation_request_status_logs second.2 =
             consultation_request_status_logs db ++ [log]
           ∧ models.request_id log = request_id
           ∧ models.changed_by_user_id log = models.id owner
           ∧ models.old_status log = Some "pending"
           ∧ models.new_status log = "cancelled").
Proof.
  intros Hreq Hown. split.
  - intros Hst now. unfold cancel_my_request, bind.
    rewrite (owner_lookup _ _ _ _ Hreq Hown). by rewrite Hst.
  - intros Hst now1 now2. cbn zeta.
    assert (cancel_my_request request_id owner now1 db =
      (Ok {| ok := true; old_status := "pending"; new_status := "cancelled" |},
       {| users := users db;
          consultation_requests :=
            <[request_id := session.with_status "cancelled" now1 req]>
              (consultation_requests db);
          consultation_request_status_logs :=
            consultation_request_status_logs db ++
            [{| models.log_id := next_id (log_ids db);
                models.request_id := request_id;
                models.changed_by_user_id := models.id owner;
                models.old_status := Some "pending";
                models.new_status := "cancelled";
                models.changed_at := now1 |}] |})) as ->.
    { unfold cancel_my_request, bind.
      rewrite (owner_lookup _ _ _ _ Hreq Hown). by rewrite Hst. }
    cbn [fst snd].
    set (db1 := {| users := _ |}).
    assert (cancel_my_request request_id owner now2 db1 =
      (Ok {| ok := true; old_status := "cancelled"; new_status := "cancelled" |},
       db1)) as ->.
    { unfold cancel_my_request, bind.
      rewrite (owner_lookup db1 request_id owner
                 (session.with_status "cancelled" now1 req)).
      - unfold session.with_status. by rewrite Hst.
      - unfold request, db1. cbn. apply lookup_insert_eq.
      - unfold session.with_status. by rewrite Hst. }
    cbn [fst snd]. repeat split; eauto 10.
Qed.

Lemma cancel_idempotent_witness :
  cancel_my_request 1 sample.alice 300 sample.db_cancelled =
    (Ok {| ok := true; old_status := "cancelled"; new_status := "cancelled" |},
     sample.db_cancelled)
  ∧ length (consultation_request_status_logs
      (cancel_my_request 1 sample.alice 300
         (cancel_my_request 1 sample.alice 200 sample.db_created).2).2) = 1%nat.
Proof.
  split.
  - eapply (proj1 (cancel_idempotent 1 sample.alice sample.db_cancelled _
                     ltac:(vm_compute; reflexivity) eq_refl)).
    reflexivity.
  - destruct (proj2 (cancel_idempotent 1 sample.alice sample.db_created _
                       ltac:(vm_compute; reflexivity) eq_refl)
                eq_refl 200 300) as (_ & _ & _ & log & -> & _).
    reflexivity.
Defined.

(** ** The advisor route *)

Lemma to_model_status_value (s : schemas.RequestStatus) :
  models.value (to_model_status s) = schemas.value s.
Proof. by destruct s. Qed.

Lemma to_model_status_lookup (s : schemas.RequestStatus) :
  models.RequestStatusEnum_of (schemas.value s) = Some (to_model_status s).
Proof. by destruct s. Qed.

Lemma RequestStatus_of_value (s : schemas.RequestStatus) :
  schemas.RequestStatus_of (schemas.value s) = Some s.
Proof. by destruct s. Qed.

Lemma with_status_status (v : string) (now : Z) req :
  models.status (session.with_status v now req) = v.
Proof.
  unfold session.with_status.
  destruct (String.eqb (models.status req) v) eqn:E; [|done].
  by apply String.eqb_eq in E.
Qed.

Lemma require_advisor_ok (u : models.User) (db : DB) :
  is_advisor u = true → deps.require_advisor u db = (Ok u, db).
Proof. unfold is_advisor, deps.require_advisor. by intros ->. Qed.

(** The whole effect of a status patch that passes the role check, the body
    validation and the lookup. *)
Lemma update_request_status_eq
    (request_id : Z) (s : schemas.RequestStatus) (advisor : models.User)
    (now : Z) (db : DB) (req : models.ConsultationRequest) :
  is_advisor advisor = true →
  request db request_id = Some req →
  let req' := session.with_status (schemas.value s) now req in
  let db' :=
    {| users := users db;
       consultation_requests := <[request_id := req']> (consultation_requests db);
       consultation_request_status_logs :=
         consultation_request_status_logs db ++
         [{| models.log_id := next_id (log_ids db);
             models.request_id := request_id;
             models.changed_by_user_id := models.id advisor;
             models.old_status := Some (models.status req);
             models.new_status := schemas.value s;
             models.changed_at := now |}] |} in
  update_request_status request_id (schemas.value s) advisor now db =
    (Ok (_to_out request_id req' (user_of db' req')), db').
Proof.
  intros Hrole Hreq. cbn zeta. unfold update_request_status, bind.
  rewrite (require_advisor_ok _ _ Hrole).
  unfold schemas.validate_ConsultationRequestStatusUpdate.
  rewrite RequestStatus_of_value.
  unfold session.request_by_id, query. unfold request in Hreq. rewrite Hreq.
  unfold session.set_status_and_log. by rewrite to_model_status_value.
Qed.

(** A status patch succeeds only for an advisor or admin, a body that names
    one of the four statuses, and an existing request. *)
Lemma update_request_status_Ok
    (request_id : Z) (payload : string) (requester : models.User) (now : Z)
    (db db' : DB) out :
  update_request_status request_id payload requester now db = (Ok out, db') →
  is_advisor requester = true
  ∧ ∃ s req, payload = schemas.value s ∧ request db request_id = Some req.
Proof.
  unfold update_request_status, bind, deps.require_advisor, is_advisor.
  destruct (pystr.in_tuple _ _); [|done]. cbn [negb]. unfold ret.
  unfold schemas.validate_ConsultationRequestStatusUpdate.
  destruct (schemas.RequestStatus_of payload) as [s|] eqn:Hs; [|done].
  unfold session.request_by_id, query, request.
  destruct (consultation_requests db !! request_id) as [req|]; [|done].
  intros _. split; [done|]. exists s, req. split; [|done].
  unfold schemas.RequestStatus_of in Hs.
  repeat (destruct (String.eqb payload _) eqn:E;
          [apply String.eqb_eq in E; by injection Hs as <-|clear E]).
  done.
Qed.

(** C2. A status patch by an advisor or admin on an existing request
    succeeds for any new status, whatever the current one: the request takes
    the new status and exactly one audit row is appended, carrying the new
    status, the status the request had before as old_status, and the id of
    the requester.  No case is exempt, so a patch to the status the request
    already has appends its row too. *)
Theorem advisor_set_status_appends_one_audit_row
    (request_id : Z) (s : schemas.RequestStatus) (advisor : models.User)
    (now : Z) (db : DB) (req : models.ConsultationRequest) :
  is_advisor advisor = true →
  request db request_id = Some req →
  ∃ out db' req' log,
    update_request_status request_id (schemas.value s) advisor now db
      = (Ok out, db')
    ∧ request db' request_id = Some req'
    ∧ models.status req' = schemas.value s
    ∧ schemas.out_status out = schemas.value s
    ∧ consultation_request_status_logs db' =
        consultation_request_status_logs db ++ [log]
    ∧ models.request_id log = request_id
    ∧ models.new_status log = models.status req'
    ∧ models.old_status log = Some (models.status req)
    ∧ models.changed_by_user_id log = models.id advisor.
Proof.
  intros Hrole Hreq.
  do 4 eexists. split; [by apply update_request_status_eq|].
  unfold request. cbn. rewrite lookup_insert_eq.
  by rewrite !with_status_status.
Qed.

Lemma advisor_set_status_appends_one_audit_row_witness :
  ∃ out db' req' log,
    update_request_status 1 "in_review" sample.carla 300 sample.db_in_review
      = (Ok out, db')
    ∧ request db' 1 = Some req'
    ∧ models.status req' = "in_review"
    ∧ schemas.out_status out = "in_review"
    ∧ consultation_request_status_logs db' =
        consultation_request_status_logs sample.db_in_review ++ [log]
    ∧ models.request_id log = 1
    ∧ models.new_status log = models.status req'
    ∧ models.old_status log = Some "in_review"
    ∧ models.changed_by_user_id log = 3.
Proof.
  apply (advisor_set_status_appends_one_audit_row
           1 schemas.in_review sample.carla 300 sample.db_in_review
           (sample.house_request "in_review" 200)).
  - reflexivity.
  - vm_compute. reflexivity.
Defined.

(** C10. Frame of a status patch.  A successful patch by an advisor or admin
    leaves user_id, goal, amount, monthly_contribution, risk_profile,
    time_horizon_years, notes and created_at of the request as they were
    (only status and updated_at may differ), leaves every other request
    untouched, and adds or removes no request. *)
Theorem advisor_set_status_frame
    (request_id : Z) (s : schemas.RequestStatus) (advisor : models.User)
    (now : Z) (db : DB) (req : models.ConsultationRequest) :
  is_advisor advisor = true →
  request db request_id = Some req →
  ∃ out db' req',
    update_request_status request_id (schemas.value s) advisor now db
      = (Ok out, db')
    ∧ request db' request_id = Some req'
    ∧ models.user_id req' = models.user_id req
    ∧ models.goal req' = models.goal req
    ∧ models.amount req' = models.amount req
    ∧ models.monthly_contribution req' = models.monthly_contribution req
    ∧ models.risk_profile req' = models.risk_profile req
    ∧ models.time_horizon_years req' = models.time_horizon_years req
    ∧ models.notes req' = models.notes req
    ∧ models.created_at req' = models.created_at req
    ∧ (∀ other, other ≠ request_id → request db' other = request db other)
    ∧ users db' = users db.
Proof.
  intros Hrole Hreq.
  do 3 eexists. split; [by apply update_request_status_eq|].
  unfold request. cbn. rewrite lookup_insert_eq.
  split; [done|].
  assert (∀ A (f : models.ConsultationRequest → A),
            (∀ r v t, f
               {| models.user_id := models.user_id r;
                  models.goal := models.goal r;
                  models.amount := models.amount r;
                  models.monthly_contribution := models.monthly_contribution r;
                  models.risk_profile := models.risk_profile r;
                  models.time_horizon_years := models.time_horizon_years r;
                  models.notes := models.notes r;
                  models.status := v;
                  models.created_at := models.created_at r;
                  models.updated_at := t |} = f r) →
            f (session.with_status (schemas.value s) now req) = f req) as Hf.
  { intros A f Hrec. unfold session.with_status.
    by destruct (String.eqb _ _). }
  rewrite !Hf by done.
  repeat split; try done.
  intros other Hne. by rewrite lookup_insert_ne.
Qed.

Lemma advisor_set_status_frame_witness :
  ∃ out db' req',
    update_request_status 1 "completed" sample.carla 300 sample.db_in_review
      = (Ok out, db')
    ∧ request db' 1 = Some req'
    ∧ models.user_id req' = 1
    ∧ models.goal req' = "Comprare casa"
    ∧ models.amount req' = sample.thousand
    ∧ models.monthly_contribution req' = None
    ∧ models.risk_profile req' = "equilibrato"
    ∧ models.time_horizon_years req' = 10
    ∧ models.notes req' = None
    ∧ models.created_at req' = 100
    ∧ (∀ other, other ≠ 1 → request db' other = request sample.db_in_review other)
    ∧ users db' = users sample.db_in_review.
Proof.
  apply (advisor_set_status_frame
           1 schemas.completed sample.carla 300 sample.db_in_review
           (sample.house_request "in_review" 200)).
  - reflexivity.
  - vm_compute. reflexivity.
Defined.

(** ** The audit trail agrees with the requests *)

Section reconciliation.

Implicit Types (db : DB) (req : models.ConsultationRequest).

Lemma logs_of_snoc db (rid : Z) (log : models.ConsultationRequestStatusLog) us rs :
  logs_of rid {| users := us; consultation_requests := rs;
                 consultation_request_status_logs :=
                   consultation_request_status_logs db ++ [log] |} =
  logs_of rid db ++ (if decide (models.request_id log = rid) then [log] else []).
Proof.
  unfold logs_of. cbn [consultation_request_status_logs].
  by rewrite filter_app.
Qed.

Lemma logs_of_unreferenced db (rid : Z) :
  logs_reference_requests db → request db rid = None → logs_of rid db = [].
Proof.
  intros Hfk Hnone. unfold logs_of.
  destruct (filter _ _) as [|l ls] eqn:E; [done|exfalso].
  assert (l ∈ filter (λ l, models.request_id l = rid)
                 (consultation_request_status_logs db)) as Hl
    by (rewrite E; left).
  apply list_elem_of_filter in Hl as [Hrid Hl].
  unfold logs_reference_requests in Hfk. rewrite Forall_forall in Hfk.
  destruct (Hfk _ Hl) as [req Hreq]. congruence.
Qed.

Lemma consistent_empty (us : list models.User) : consistent (empty_db us).
Proof.
  split; [by constructor|].
  intros rid req Hreq. unfold request in Hreq. cbn in Hreq.
  by rewrite lookup_empty in Hreq.
Qed.

Lemma consistent_add_request db req :
  consistent db → models.status req = "pending" →
  consistent (session.add_request req db).2.
Proof.
  intros [Hfk Hrec] Hst. unfold session.add_request. cbn [snd].
  pose proof (next_id_fresh db) as Hfresh.
  set (new_id := next_id (request_ids db)) in *.
  split.
  - unfold logs_reference_requests, request in *. cbn.
    eapply Forall_impl; [exact Hfk|]. intros l [r Hr]. cbn beta in *.
    destruct (decide (new_id = models.request_id l)) as [<-|Hne].
    + rewrite lookup_insert_eq. eauto.
    + rewrite lookup_insert_ne by done. eauto.
  - intros rid r. unfold request. cbn.
    destruct (decide (new_id = rid)) as [<-|Hne].
    + rewrite lookup_insert_eq. intros [= <-].
      unfold agrees_with_log, latest_log.
      change (logs_of new_id {| users := users db;
                consultation_requests := <[new_id:=req]> (consultation_requests db);
                consultation_request_status_logs :=
                  consultation_request_status_logs db |})
        with (logs_of new_id db).
      by rewrite (logs_of_unreferenced db new_id Hfk Hfresh).
    + rewrite lookup_insert_ne by done. intros Hr. exact (Hrec rid r Hr).
Qed.

Lemma consistent_set_status_and_log db (rid : Z) req (v : string)
    (by_user : Z) (old : string) (now : Z) :
  consistent db → request db rid = Some req →
  consistent (session.set_status_and_log rid req v by_user old v now db).2.
Proof.
  intros [Hfk Hrec] Hreq. unfold session.set_status_and_log. cbn [snd].
  split.
  - unfold logs_reference_requests, request in *. cbn.
    apply Forall_app. split.
    + eapply Forall_impl; [exact Hfk|]. intros l [r Hr]. cbn beta in *.
      destruct (decide (rid = models.request_id l)) as [<-|Hne].
      * rewrite lookup_insert_eq. eauto.
      * rewrite lookup_insert_ne by done. eauto.
    + constructor; [|constructor]. cbn. rewrite lookup_insert_eq. eauto.
  - intros rid' r. unfold request, agrees_with_log, latest_log.
    cbn [consultation_requests]. rewrite logs_of_snoc.
    cbn [models.request_id].
    destruct (decide (rid = rid')) as [<-|Hne].
    + rewrite lookup_insert_eq. intros [= <-].
      rewrite last_snoc. cbn [models.new_status].
      by rewrite with_status_status.
    + rewrite lookup_insert_ne by done. intros Hr.
      rewrite app_nil_r. exact (Hrec rid' r Hr).
Qed.

Lemma consistent_delete_request db (rid : Z) :
  consistent db → consistent (session.delete_request rid db).2.
Proof.
  intros [Hfk Hrec]. unfold session.delete_request.
  destruct (existsb _ _) eqn:Hlogs; [by split|]. cbn [snd].
  assert (∀ l, l ∈ consultation_request_status_logs db →
               models.request_id l ≠ rid) as Hnone.
  { intros l Hl Heq.
    assert (existsb (λ l, models.request_id l =? rid)
              (consultation_request_status_logs db) = true); [|congruence].
    apply existsb_exists. exists l. split.
    - by apply list_elem_of_In.
    - by apply Z.eqb_eq. }
  split.
  - unfold logs_reference_requests, request in *. cbn.
    rewrite Forall_forall in Hfk |- *. intros l Hl.
    rewrite lookup_delete_ne by (symmetry; by apply Hnone).
    by apply Hfk.
  - intros rid' r. unfold request. cbn.
    destruct (decide (rid = rid')) as [<-|Hne].
    + by rewrite lookup_delete_eq.
    + rewrite lookup_delete_ne by done. intros Hr. exact (Hrec rid' r Hr).
Qed.

Lemma consistent_create_request payload owner (now : Z) db :
  consistent db → consistent (create_request payload owner now db).2.
Proof.
  intros Hc. unfold create_request.
  destruct (schemas.validate_ConsultationRequestCreate payload) as [p|]; [|done].
  unfold bind.
  match goal with
  | |- context [session.add_request ?r db] =>
      pose proof (consistent_add_request db r Hc eq_refl) as H;
      destruct (session.add_request r db) as [[new_id|e] db'] eqn:E
  end; done.
Qed.

Lemma consistent_cancel_my_request (rid : Z) requester (now : Z) db :
  consistent db → consistent (cancel_my_request rid requester now db).2.
Proof.
  intros Hc. unfold cancel_my_request, bind,
    session.request_by_id_and_owner, query.
  destruct (consultation_requests db !! rid) as [req|] eqn:Hreq; [|done].
  destruct (models.user_id req =? models.id requester); [|done].
  destruct (pystr.in_tuple _ _); [done|].
  destruct (String.eqb _ _); [done|].
  pose proof (consistent_set_status_and_log db rid req "cancelled"
                (models.id requester) (models.status req) now Hc Hreq) as H.
  change (models.value models.cancelled) with "cancelled".
  by destruct (session.set_status_and_log _ _ _ _ _ _ _ _) as [[?|?] ?].
Qed.

Lemma consistent_update_request_status (rid : Z) (payload : string)
    advisor (now : Z) db :
  consistent db → consistent (update_request_status rid payload advisor now db).2.
Proof.
  intros Hc. unfold update_request_status, bind, deps.require_advisor.
  destruct (negb _); [done|]. unfold ret.
  destruct (schemas.validate_ConsultationRequestStatusUpdate payload) as [s|];
    [|done].
  unfold session.request_by_id, query.
  destruct (consultation_requests db !! rid) as [req|] eqn:Hreq; [|done].
  rewrite to_model_status_value.
  pose proof (consistent_set_status_and_log db rid req (schemas.value s)
                (models.id advisor) (models.status req) now Hc Hreq) as H.
  by destruct (session.set_status_and_log _ _ _ _ _ _ _ _) as [[?|?] ?].
Qed.

Lemma consistent_delete_my_request (rid : Z) requester db :
  consistent db → consistent (delete_my_request rid requester db).2.
Proof.
  intros Hc. unfold delete_my_request, bind,
    session.request_by_id_and_owner, query.
  destruct (consultation_requests db !! rid) as [req|]; [|done].
  destruct (models.user_id req =? models.id requester); [|done].
  destruct (pystr.in_tuple _ _); [done|].
  by apply consistent_delete_request.
Qed.

Lemma consistent_apply_op db (o : op) : consistent db → consistent (apply_op db o).
Proof.
  destruct o; cbn [apply_op].
  - apply consistent_create_request.
  - apply consistent_cancel_my_request.
  - apply consistent_update_request_status.
Qed.

Lemma consistent_run (ops : list op) db : consistent db → consistent (run ops db).
Proof.
  revert db. induction ops as [|o ops IH]; intros db Hc; [done|].
  cbn. apply IH. by apply consistent_apply_op.
Qed.

(** Every state the service reaches, deletions included, keeps the foreign
    key of the audit table and the agreement of requests and audit trail. *)
Lemma reachable_consistent (us : list models.User) db :
  reachable us db → consistent db.
Proof.
  induction 1 as [|db o _ IH|db rid u _ IH].
  - apply consistent_empty.
  - by apply consistent_apply_op.
  - by apply consistent_delete_my_request.
Qed.

End reconciliation.

(** C1. Audit-log reconciliation.  Start from empty request and audit tables
    and run any sequence of create, cancel and advisorSetStatus calls, with
    any callers and arguments, failed calls included.  Then every request
    whose audit trail is non-empty has the new_status of its most recent
    audit row as its status, and every request without audit rows is
    pending. *)
Theorem audit_log_reconciles
    (us : list models.User) (ops : list op) (request_id : Z)
    (req : models.ConsultationRequest) :
  request (run ops (empty_db us)) request_id = Some req →
  match latest_log request_id (run ops (empty_db us)) with
  | Some l => models.new_status l = models.status req
  | None => models.status req = "pending"
  end.
Proof.
  intros Hreq.
  destruct (consistent_run ops (empty_db us) (consistent_empty us)) as [_ Hrec].
  exact (Hrec request_id req Hreq).
Qed.

Lemma audit_log_reconciles_witness :
  let db := run [create sample.house sample.alice 100;
                 advisorSetStatus 1 "in_review" sample.carla 200;
                 cancel 1 sample.alice 300;
                 advisorSetStatus 1 "completed" sample.carla 400]
                (empty_db [sample.alice; sample.bob; sample.carla]) in
  request db 1 = Some (sample.house_request "completed" 400)
  ∧ ∃ l, latest_log 1 db = Some l ∧ models.new_status l = "completed".
Proof.
  cbn zeta. split; [vm_compute; reflexivity|].
  pose proof (audit_log_reconciles
    [sample.alice; sample.bob; sample.carla]
    [create sample.house sample.alice 100;
     advisorSetStatus 1 "in_review" sample.carla 200;
     cancel 1 sample.alice 300;
     advisorSetStatus 1 "completed" sample.carla 400]
    1 (sample.house_request "completed" 400)
    ltac:(vm_compute; reflexivity)) as H.
  destruct (latest_log 1 _) as [l|] eqn:E.
  - exists l. split; [reflexivity|exact H].
  - discriminate H.
Defined.

(** ** Creation *)

(** What the validation of a create body lets through. *)
Lemma validate_ConsultationRequestCreate_Some (b : schemas.body) p :
  schemas.validate_ConsultationRequestCreate b = Some p →
  schemas.float_ge0 (schemas.body_amount b) = true
  ∧ 1 ≤ schemas.body_time_horizon_years b ≤ 60
  ∧ schemas.RiskProfile_of (schemas.body_risk_profile b)
      = Some (schemas.risk_profile p)
  ∧ schemas.goal p = schemas.body_goal b
  ∧ schemas.amount p = schemas.body_amount b
  ∧ schemas.time_horizon_years p = schemas.body_time_horizon_years b.
Proof.
  unfold schemas.validate_ConsultationRequestCreate.
  destruct (schemas.float_ge0 _); [|done]. cbn [negb].
  destruct (negb (from_option _ _ _)); [done|].
  destruct (schemas.RiskProfile_of _) as [rp|]; [|done].
  destruct (_ && _) eqn:E; [|done]. cbn [negb]. intros [= <-]. cbn.
  apply andb_true_iff in E as [E1 E2]. repeat split; try done; lia.
Qed.

(** The effect of a create call whose body passes validation. *)
Lemma create_request_effect
    (payload : schemas.body) (p : schemas.ConsultationRequestCreate)
    (owner : models.User) (now : Z) (db : DB) :
  logs_reference_requests db →
  schemas.validate_ConsultationRequestCreate payload = Some p →
  ∃ out db' req,
    create_request payload owner now db = (Ok out, db')
    ∧ request db (schemas.out_id out) = None
    ∧ request db' (schemas.out_id out) = Some req
    ∧ (∀ other, other ≠ schemas.out_id out → request db' other = request db other)
    ∧ models.user_id req = models.id owner
    ∧ schemas.out_user_id out = models.id owner
    ∧ models.status req = "pending"
    ∧ schemas.out_status out = "pending"
    ∧ logs_of (schemas.out_id out) db' = []
    ∧ consultation_request_status_logs db' = consultation_request_status_logs db.
Proof.
  intros Hfk Hp. unfold create_request. rewrite Hp.
  unfold bind, session.add_request, ret.
  do 3 eexists. split; [reflexivity|].
  cbn [schemas.out_id _to_out]. unfold request at 2 3.
  cbn [consultation_requests].
  rewrite lookup_insert_eq. pose proof (next_id_fresh db) as Hfresh.
  repeat split; try done.
  - intros other Hne. unfold request. by rewrite lookup_insert_ne.
  - exact (logs_of_unreferenced db _ Hfk Hfresh).
Qed.

(** C6. A create call with a valid payload, on a database whose audit rows
    all reference existing requests (the foreign key of the audit table,
    which every reachable state satisfies), succeeds and stores one new
    request: it is owned by the authenticated caller, its status is pending,
    it has no audit row, and the audit table is not written. *)
Theorem create_request_pending_without_audit
    (payload : schemas.body) (p : schemas.ConsultationRequestCreate)
    (owner : models.User) (now : Z) (db : DB) :
  logs_reference_requests db →
  schemas.validate_ConsultationRequestCreate payload = Some p →
  ∃ out db' req,
    create_request payload owner now db = (Ok out, db')
    ∧ request db (schemas.out_id out) = None
    ∧ request db' (schemas.out_id out) = Some req
    ∧ (∀ other, other ≠ schemas.out_id out → request db' other = request db other)
    ∧ models.user_id req = models.id owner
    ∧ schemas.out_user_id out = models.id owner
    ∧ models.status req = "pending"
    ∧ schemas.out_status out = "pending"
    ∧ logs_of (schemas.out_id out) db' = []
    ∧ consultation_request_status_logs db' = consultation_request_status_logs db.
Proof. apply create_request_effect. Qed.

Lemma create_request_pending_without_audit_witness :
  ∃ out db' req,
    create_request sample.house sample.bob 500 sample.db_cancelled = (Ok out, db')
    ∧ request sample.db_cancelled (schemas.out_id out) = None
    ∧ request db' (schemas.out_id out) = Some req
    ∧ (∀ other, other ≠ schemas.out_id out →
         request db' other = request sample.db_cancelled other)
    ∧ models.user_id req = 2
    ∧ schemas.out_user_id out = 2
    ∧ models.status req = "pending"
    ∧ schemas.out_status out = "pending"
    ∧ logs_of (schemas.out_id out) db' = []
    ∧ consultation_request_status_logs db' =
        consultation_request_status_logs sample.db_cancelled.
Proof.
  eapply (create_request_pending_without_audit sample.house _ sample.bob 500
            sample.db_cancelled).
  - apply (reachable_consistent [sample.alice; sample.bob; sample.carla]).
    apply (reachable_op _ _ (cancel 1 sample.alice 200)).
    apply (reachable_op _ _ (create sample.house sample.alice 100)).
    apply reachable_empty.
  - reflexivity.
Defined.

(** In particular a request created in a reachable state has no audit row. *)
Lemma create_request_in_reachable_state
    (us : list models.User) (payload : schemas.body) (owner : models.User)
    (now : Z) (db db' : DB) out :
  reachable us db →
  create_request payload owner now db = (Ok out, db') →
  logs_of (schemas.out_id out) db' = []
  ∧ (models.status <$> request db' (schemas.out_id out)) = Some "pending"
  ∧ (models.user_id <$> request db' (schemas.out_id out)) = Some (models.id owner).
Proof.
  intros Hreach Hcall.
  destruct (schemas.validate_ConsultationRequestCreate payload) as [p|] eqn:Hp.
  - destruct (reachable_consistent us db Hreach) as [Hfk _].
    destruct (create_request_effect payload p owner now db
                Hfk Hp) as (out0 & db0 & req & Hcall0 & _ & Hreq & _ & Hown & _
                            & Hst & _ & Hlogs & _).
    rewrite Hcall in Hcall0. injection Hcall0 as <- <-.
    rewrite Hreq. cbn. by rewrite Hst, Hown.
  - unfold create_request in Hcall. by rewrite Hp in Hcall.
Qed.

(** C5, at the failing inputs.  A body with amount 0.0 passes the validation
    of create, and so does a body whose goal is blank: the call answers 201
    and the row is stored with amount zero, respectively with an empty
    goal. *)
Theorem create_request_accepts_zero_amount_and_blank_goal :
  (∃ out db',
     create_request sample.house_zero_amount sample.alice 100 sample.db0
       = (Ok out, db')
     ∧ schemas.out_amount out = S754_zero false
     ∧ schemas.float_gt0 (schemas.out_amount out) = false
     ∧ (models.amount <$> request db' (schemas.out_id out))
         = Some (S754_zero false))
  ∧ (∃ out db',
       create_request sample.house_blank_goal sample.alice 100 sample.db0
         = (Ok out, db')
       ∧ schemas.out_goal out = ""
       ∧ (models.goal <$> request db' (schemas.out_id out)) = Some "").
Proof.
  split; do 2 eexists; (split; [lazy; reflexivity|]); vm_compute; done.
Qed.

(** The constraints creation does enforce: a stored request has an amount
    that is not below zero (and is not NaN), a horizon within 1..60 and one
    of the three risk profiles. *)
Lemma create_request_enforced
    (payload : schemas.body) (owner : models.User) (now : Z) (db db' : DB) out :
  create_request payload owner now db = (Ok out, db') →
  schemas.float_ge0 (schemas.out_amount out) = true
  ∧ 1 ≤ schemas.out_time_horizon_years out ≤ 60
  ∧ schemas.out_risk_profile out ∈ ["prudente"; "equilibrato"; "dinamico"].
Proof.
  unfold create_request.
  destruct (schemas.validate_ConsultationRequestCreate payload) as [p|] eqn:Hp;
    [|done].
  apply validate_ConsultationRequestCreate_Some in Hp
    as (Ha & [Hlo Hhi] & _ & _ & Ea & Eh).
  unfold bind, session.add_request, ret. intros [= <- _].
  cbn [_to_out schemas.out_amount schemas.out_time_horizon_years
       schemas.out_risk_profile models.amount models.time_horizon_years
       models.risk_profile].
  rewrite Ea, Eh. split; [exact Ha|]. split; [split; assumption|].
  destruct (schemas.risk_profile p); cbn; set_solver.
Qed.

(** ** Deletion *)

Lemma no_audit_rows (db : DB) (rid : Z) :
  logs_of rid db = [] ↔
  existsb (λ l, models.request_id l =? rid)
          (consultation_request_status_logs db) = false.
Proof.
  unfold logs_of.
  induction (consultation_request_status_logs db) as [|l ls IH]; [done|].
  cbn [existsb]. rewrite orb_false_iff, <- IH, Z.eqb_neq.
  destruct (decide (models.request_id l = rid)) as [E|E].
  - rewrite filter_cons_True by done. split; [done|]. by intros [? _].
  - rewrite filter_cons_False by done. tauto.
Qed.

(** Delete by the owner of a request that is in_review or completed fails
    with HTTP 400 and changes nothing. *)
Lemma delete_in_review_or_completed_rejected
    (request_id : Z) (owner : models.User) (db : DB) req :
  request db request_id = Some req →
  models.user_id req = models.id owner →
  models.status req = "in_review" ∨ models.status req = "completed" →
  delete_my_request request_id owner db =
    (Raise (HTTPException 400
       "Non puoi eliminare una richiesta già in lavorazione o completata"), db).
Proof.
  intros Hreq Hown Hst. unfold delete_my_request, bind.
  rewrite (owner_lookup _ _ _ _ Hreq Hown).
  apply in_tuple_blocked in Hst. by rewrite Hst.
Qed.

(** Delete by the owner of a request in any other status that has no audit
    row removes the row and writes nothing else. *)
Lemma delete_without_audit_rows
    (request_id : Z) (owner : models.User) (db : DB) req :
  request db request_id = Some req →
  models.user_id req = models.id owner →
  models.status req ≠ "in_review" → models.status req ≠ "completed" →
  logs_of request_id db = [] →
  ∃ db',
    delete_my_request request_id owner db = (Ok tt, db')
    ∧ request db' request_id = None
    ∧ (∀ other, other ≠ request_id → request db' other = request db other)
    ∧ consultation_request_status_logs db' = consultation_request_status_logs db.
Proof.
  intros Hreq Hown H1 H2 Hlogs. unfold delete_my_request, bind.
  rewrite (owner_lookup _ _ _ _ Hreq Hown).
  rewrite (in_tuple_not_blocked _ H1 H2).
  unfold session.delete_request. apply no_audit_rows in Hlogs. rewrite Hlogs.
  eexists. split; [reflexivity|]. unfold request. cbn.
  rewrite lookup_delete_eq. repeat split; try done.
  intros other Hne. by rewrite lookup_delete_ne.
Qed.

(** Delete by the owner of a request in any other status that has an audit
    row fails at commit with an integrity error, and the row stays. *)
Lemma delete_with_audit_rows
    (request_id : Z) (owner : models.User) (db : DB) req :
  request db request_id = Some req →
  models.user_id req = models.id owner →
  models.status req ≠ "in_review" → models.status req ≠ "completed" →
  logs_of request_id db ≠ [] →
  delete_my_request request_id owner db = (Raise IntegrityError, db).
Proof.
  intros Hreq Hown H1 H2 Hlogs. unfold delete_my_request, bind.
  rewrite (owner_lookup _ _ _ _ Hreq Hown).
  rewrite (in_tuple_not_blocked _ H1 H2).
  unfold session.delete_request.
  destruct (existsb _ _) eqn:E; [done|].
  by apply no_audit_rows in E.
Qed.

(** In a state that agrees with its audit trail a cancelled request has an
    audit row, so its deletion by the owner always fails. *)
Lemma delete_cancelled_fails
    (request_id : Z) (owner : models.User) (db : DB) req :
  consistent db →
  request db request_id = Some req →
  models.user_id req = models.id owner →
  models.status req = "cancelled" →
  delete_my_request request_id owner db = (Raise IntegrityError, db).
Proof.
  intros [_ Hrec] Hreq Hown Hst.
  apply (delete_with_audit_rows _ _ _ req); try done; try by rewrite Hst.
  specialize (Hrec _ _ Hreq). unfold agrees_with_log, latest_log in Hrec.
  intros Hnil. rewrite Hnil, Hst in Hrec. discriminate Hrec.
Qed.

(** C7, at the failing input.  alice creates request 1 and cancels it; her
    DELETE of the cancelled request then fails with an integrity error
    (HTTP 500) and the row is still there. *)
Theorem delete_of_cancelled_request_fails :
  request sample.db_cancelled 1 = Some (sample.house_request "cancelled" 200)
  ∧ delete_my_request 1 sample.alice sample.db_cancelled
      = (Raise IntegrityError, sample.db_cancelled)
  ∧ signal (delete_my_request 1 sample.alice sample.db_cancelled) = Some 500.
Proof. vm_compute. done. Qed.

(** ** What a requester who is not the owner sees *)






(** An advisor or admin who is not the owner does receive the audit rows. *)
Lemma history_for_advisor
    (request_id : Z) (advisor : models.User) (db : DB) req :
  request db request_id = Some req →
  is_advisor advisor = true →
  get_request_history request_id advisor db =
    (Ok (session.order_by_changed_at_desc (logs_of request_id db)), db).
Proof.
  intros Hreq Hrole. unfold is_advisor in Hrole. unfold request in Hreq.
  unfold get_request_history, bind, session.request_by_id, query.
  by rewrite Hreq, Hrole.
Qed.

(** ** The advisor listing *)

(** The rows the listing selects: with a non-blank search text the status
    filter is not part of the selection. *)
Lemma list_all_query_selects
    (status : option models.RequestStatusEnum) (q : option string) (db : DB)
    (r : Z * models.ConsultationRequest) :
  r ∈ list_all_query status q db ↔
  request db r.1 = Some r.2
  ∧ satisfies_filters db
      (match q with
       | Some q' =>
           if pystr.truthy q' && pystr.truthy (pystr.strip q')
           then None else status
       | None => status
       end) q r.2 = true.
Proof.
  assert (r ∈ map_to_list (consultation_requests db) ↔ request db r.1 = Some r.2)
    as Hin.
  { destruct r as [k v]. apply elem_of_map_to_list. }
  assert (∀ st,
    r ∈ match st with
        | Some st => filter (λ r : Z * models.ConsultationRequest,
                               models.status r.2 = models.value st)
                            (map_to_list (consultation_requests db))
        | None => map_to_list (consultation_requests db)
        end ↔
    request db r.1 = Some r.2
    ∧ match st with
      | Some st => String.eqb (models.status r.2) (models.value st)
      | None => true
      end = true) as Hstatus.
  { intros [st|].
    - rewrite list_elem_of_filter, Hin, String.eqb_eq. tauto.
    - rewrite Hin. tauto. }
  unfold list_all_query, satisfies_filters.
  destruct q as [q'|].
  - destruct (pystr.truthy q' && pystr.truthy (pystr.strip q')) eqn:E.
    + rewrite list_elem_of_filter, Hin. cbn. tauto.
    + rewrite Hstatus, andb_true_r. tauto.
  - rewrite Hstatus, andb_true_r. tauto.
Qed.

(** The listing counts the selected rows before pagination and returns a
    page of them, for an advisor or admin and well-formed parameters. *)
Lemma list_all_requests_page
    (status : option models.RequestStatusEnum) (q : option string)
    (skip limit : Z) (advisor : models.User) (db : DB) :
  is_advisor advisor = true →
  0 ≤ skip → 1 ≤ limit ≤ 200 →
  ∃ page,
    list_all_requests (models.value <$> status) q skip limit advisor db =
      (Ok {| schemas.items := (λ r, _to_out r.1 r.2 (user_of db r.2)) <$> page;
             schemas.total := Z.of_nat (length (list_all_query status q db)) |},
       db)
    ∧ ∀ r, r ∈ page → r ∈ list_all_query status q db.
Proof.
  intros Hrole Hskip [Hlo Hhi]. unfold list_all_requests, bind.
  rewrite (require_advisor_ok _ _ Hrole).
  assert (match models.value <$> status with
          | Some v => Some <$> models.RequestStatusEnum_of v
          | None => Some None
          end = Some status) as ->.
  { destruct status as [[]|]; reflexivity. }
  assert ((0 <=? skip) && (1 <=? limit) && (limit <=? 200) = true) as ->.
  { rewrite !andb_true_iff, !Z.leb_le. lia. }
  cbn [negb]. unfold query, ret. eexists. split; [reflexivity|].
  intros r Hr. apply subseteq_take, subseteq_drop in Hr.
  unfold session.order_by_created_at_desc in Hr.
  by rewrite merge_sort_Permutation in Hr.
Qed.

(** C9, at the failing input.  Request 1 is pending and its goal contains
    "casa".  Listing with status = completed and q = "casa" returns it, with
    total 1, although it fails the status filter. *)
Theorem list_all_search_ignores_status_filter :
  ∃ item,
    (list_all_requests (Some "completed") (Some "casa") 0 25
       sample.carla sample.db_created).1
      = Ok {| schemas.items := [item]; schemas.total := 1 |}
    ∧ schemas.out_id item = 1
    ∧ schemas.out_status item = "pending"
    ∧ satisfies_filters sample.db_created (Some models.completed) (Some "casa")
        (sample.house_request "pending" 100) = false
    ∧ (list_all_requests (Some "completed") None 0 25
         sample.carla sample.db_created).1
        = Ok {| schemas.items := []; schemas.total := 0 |}.
Proof.
  eexists. split; [lazy; reflexivity|]. vm_compute. done.
Qed.

(** * Further properties of the request router *)

Import calls.

(** ** Every write of the router *)

Lemma value_in_status_values (s : schemas.RequestStatus) :
  schemas.value s ∈ status_values.
Proof. destruct s; unfold status_values; cbn; repeat constructor. Qed.

Lemma not_blocked (s : string) (extra : list string) :
  pystr.in_tuple s ["in_review"; "completed"] = false →
  s ∉ extra → s ∉ "in_review" :: "completed" :: extra.
Proof.
  intros Hblk Hextra.
  assert (¬ (s = "in_review" ∨ s = "completed")) as Hn
    by (rewrite <- in_tuple_blocked; congruence).
  rewrite !not_elem_of_cons. tauto.
Qed.

Lemma RequestStatus_of_Some (v : string) (s : schemas.RequestStatus) :
  schemas.RequestStatus_of v = Some s → v = schemas.value s.
Proof.
  unfold schemas.RequestStatus_of. intros Hs.
  repeat (destruct (String.eqb v _) eqn:E;
          [apply String.eqb_eq in E; by injection Hs as <-|clear E]).
  done.
Qed.

Lemma RiskProfile_value_in_risk_values (r : schemas.RiskProfile) :
  schemas.RiskProfile_value r ∈ risk_values.
Proof. destruct r; unfold risk_values; cbn; repeat constructor. Qed.

Lemma validate_monthly_contribution (b : schemas.body) p :
  schemas.validate_ConsultationRequestCreate b = Some p →
  from_option schemas.float_ge0 true (schemas.monthly_contribution p) = true
  ∧ schemas.float_ge0 (schemas.amount p) = true
  ∧ 1 ≤ schemas.time_horizon_years p ≤ 60.
Proof.
  unfold schemas.validate_ConsultationRequestCreate.
  destruct (schemas.float_ge0 _) eqn:Ha; [|done]. cbn [negb].
  destruct (from_option _ _ _) eqn:Hm; [|done]. cbn [negb].
  destruct (schemas.RiskProfile_of _) as [rp|]; [|done].
  destruct (_ && _) eqn:E; [|done]. cbn [negb]. intros [= <-]. cbn.
  apply andb_true_iff in E as [E1 E2].
  apply Z.leb_le in E1, E2. by repeat split.
Qed.

(** Each call of a writing route leaves the database alone or performs the
    one write its route is for. *)
Lemma call_effect (db : DB) (c : call) : effect db c (apply_call db c).
Proof.
  destruct c as [[payload owner now|rid requester now|rid payload advisor now]
                |rid requester]; cbn [apply_call apply_op].
  - unfold create_request.
    destruct (schemas.validate_ConsultationRequestCreate payload) as [p|] eqn:Hp;
      [|apply effect_none].
    unfold bind.
    match goal with
    | |- context [session.add_request ?r db] =>
        change (effect db (workflow_call (create payload owner now))
                  (session.add_request r db).2)
    end.
    destruct (validate_monthly_contribution _ _ Hp) as (Hm & Ha & Hh).
    destruct Hh as [Hlo Hhi].
    apply effect_created; try done.
    split; [unfold status_values; cbn; by constructor|].
    split; [apply RiskProfile_value_in_risk_values|].
    cbn. by repeat split.
  - unfold cancel_my_request, bind, session.request_by_id_and_owner, query.
    destruct (consultation_requests db !! rid) as [req|] eqn:Hreq;
      [|apply effect_none].
    destruct (models.user_id req =? models.id requester) eqn:Hown;
      [|apply effect_none].
    destruct (pystr.in_tuple _ _) eqn:Hblk; [apply effect_none|].
    destruct (String.eqb _ _) eqn:Hc; [apply effect_none|].
    change (effect db (workflow_call (cancel rid requester now))
      (session.set_status_and_log rid req "cancelled" (models.id requester)
         (models.status req) "cancelled" now db).2).
    apply effect_cancelled; [done|by apply Z.eqb_eq|].
    apply String.eqb_neq in Hc. apply not_blocked; [done|].
    rewrite not_elem_of_cons. split; [done|apply not_elem_of_nil].
  - unfold update_request_status, bind, deps.require_advisor.
    destruct (pystr.in_tuple _ _) eqn:Hrole; [|apply effect_none].
    cbn [negb]. unfold ret.
    unfold schemas.validate_ConsultationRequestStatusUpdate.
    destruct (schemas.RequestStatus_of payload) as [s|] eqn:Hs;
      [|apply effect_none].
    apply RequestStatus_of_Some in Hs as ->.
    unfold session.request_by_id, query.
    destruct (consultation_requests db !! rid) as [req|] eqn:Hreq;
      [|apply effect_none].
    rewrite to_model_status_value.
    change (effect db
      (workflow_call (advisorSetStatus rid (schemas.value s) advisor now))
      (session.set_status_and_log rid req (schemas.value s) (models.id advisor)
         (models.status req) (schemas.value s) now db).2).
    by apply effect_patched.
  - unfold delete_my_request, bind, session.request_by_id_and_owner, query.
    destruct (consultation_requests db !! rid) as [req|] eqn:Hreq;
      [|apply effect_none].
    destruct (models.user_id req =? models.id requester) eqn:Hown;
      [|apply effect_none].
    destruct (pystr.in_tuple _ _) eqn:Hblk; [apply effect_none|].
    unfold session.delete_request.
    destruct (existsb _ _) eqn:Hlogs; [apply effect_none|]. cbn [snd].
    apply (effect_deleted db rid requester req); [done|by apply Z.eqb_eq| |].
    + apply not_blocked; [done|apply not_elem_of_nil].
    + by apply no_audit_rows.
Qed.

Lemma reachable_call (us : list models.User) (db : DB) (c : call) :
  reachable us db → reachable us (apply_call db c).
Proof.
  destruct c; cbn [apply_call]; [apply reachable_op|apply reachable_delete].
Qed.

Lemma with_status_same_content (v : string) (now : Z) req :
  same_content req (session.with_status v now req).
Proof.
  unfold session.with_status, same_content.
  by destruct (String.eqb _ _).
Qed.

Lemma with_status_valid_row (v : string) (now : Z) req :
  v ∈ status_values → valid_row req →
  valid_row (session.with_status v now req).
Proof.
  intros Hv (Hs & Hr & [Hlo Hhi] & Ha & Hm).
  unfold session.with_status.
  destruct (String.eqb _ _); by repeat split.
Qed.

Lemma same_content_refl req : same_content req req.
Proof. by repeat split. Qed.

(** ** What the stored data always looks like *)

(** X1. Every request stored in a reachable state has one of the four
    statuses, one of the three risk profiles, a horizon within 1..60, an
    amount that is not negative and a monthly contribution that, when
    present, is not negative. *)
Theorem reachable_rows_valid
    (us : list models.User) (db : DB) (request_id : Z)
    (req : models.ConsultationRequest) :
  reachable us db →
  request db request_id = Some req →
  valid_row req.
Proof.
  intros Hreach. revert request_id req.
  assert (∀ db c db', effect db c db' →
            (∀ rid r, request db rid = Some r → valid_row r) →
            ∀ rid r, request db' rid = Some r → valid_row r) as Hstep.
  { clear. intros db c db' He IH rid r. unfold request in *.
    destruct He as [c|payload owner now new_req Hown Hst Hc Hu Hval
                   |rid0 requester now req Hreq Hown Hst
                   |rid0 advisor now req s Hrole Hreq
                   |rid0 requester req Hreq Hown Hst Hlogs]; cbn.
    - apply IH.
    - destruct (decide (next_id (request_ids db) = rid)) as [<-|Hne].
      + rewrite lookup_insert_eq. by intros [= <-].
      + rewrite lookup_insert_ne by done. apply IH.
    - destruct (decide (rid0 = rid)) as [<-|Hne].
      + rewrite lookup_insert_eq. intros [= <-].
        apply with_status_valid_row; [|by eapply IH].
        unfold status_values. by repeat constructor.
      + rewrite lookup_insert_ne by done. apply IH.
    - destruct (decide (rid0 = rid)) as [<-|Hne].
      + rewrite lookup_insert_eq. intros [= <-].
        apply with_status_valid_row; [|by eapply IH].
        apply value_in_status_values.
      + rewrite lookup_insert_ne by done. apply IH.
    - intros Hr. apply lookup_delete_Some in Hr as [_ Hr]. by eapply IH. }
  induction Hreach as [|db o _ IH|db rid u _ IH]; intros request_id req.
  - unfold request. cbn. by rewrite lookup_empty.
  - exact (Hstep db (workflow_call o) _ (call_effect db (workflow_call o)) IH
             request_id req).
  - exact (Hstep db (delete_call rid u) _ (call_effect db (delete_call rid u)) IH
             request_id req).
Qed.

Lemma reachable_db_in_review :
  reachable [sample.alice; sample.bob; sample.carla] sample.db_in_review.
Proof.
  apply (reachable_op _ _ (advisorSetStatus 1 "in_review" sample.carla 200)).
  apply (reachable_op _ _ (create sample.house sample.alice 100)).
  apply reachable_empty.
Qed.

Lemma reachable_rows_valid_witness :
  valid_row (sample.house_request "in_review" 200).
Proof.
  apply (reachable_rows_valid [sample.alice; sample.bob; sample.carla]
           sample.db_in_review 1).
  - apply reachable_db_in_review.
  - vm_compute. reflexivity.
Defined.

(** ** What no call does *)

(** X2. The audit table is append-only and the users table is read-only:
    whatever the route, the caller, the arguments and the outcome, a call
    leaves every existing audit row in place, adds at most one row at the
    end, and does not touch the users table. *)
Theorem audit_table_append_only (db : DB) (c : call) :
  ∃ new,
    consultation_request_status_logs (apply_call db c) =
      consultation_request_status_logs db ++ new
    ∧ (length new ≤ 1)%nat
    ∧ users (apply_call db c) = users db.
Proof.
  destruct (call_effect db c); cbn;
    [exists []|exists []|eexists [_]|eexists [_]|exists []];
    rewrite ?app_nil_r; repeat split; cbn; lia.
Qed.

(** X3. Only the status and updated_at of a stored request can ever change:
    a request that exists before and after a call, whatever the call, has
    the same owner, goal, amount, monthly contribution, risk profile,
    horizon, notes and creation time. *)
Theorem request_content_immutable
    (db : DB) (c : call) (request_id : Z)
    (req req' : models.ConsultationRequest) :
  request db request_id = Some req →
  request (apply_call db c) request_id = Some req' →
  same_content req req'.
Proof.
  intros Hreq. unfold request in *.
  destruct (call_effect db c)
    as [c|payload owner now new_req Hown Hst Hc Hu Hval
       |rid0 requester now req0 Hreq0 Hown Hst
       |rid0 advisor now req0 s Hrole Hreq0
       |rid0 requester req0 Hreq0 Hown Hst Hlogs]; cbn.
  - rewrite Hreq. intros [= <-]. apply same_content_refl.
  - pose proof (next_id_fresh db) as Hfresh. unfold request in Hfresh.
    destruct (decide (next_id (request_ids db) = request_id)) as [<-|Hne].
    + congruence.
    + rewrite lookup_insert_ne, Hreq by done. intros [= <-].
      apply same_content_refl.
  - unfold request in Hreq0.
    destruct (decide (rid0 = request_id)) as [<-|Hne].
    + rewrite lookup_insert_eq. intros [= <-].
      assert (req0 = req) as -> by (by congruence).
      apply with_status_same_content.
    + rewrite lookup_insert_ne, Hreq by done. intros [= <-].
      apply same_content_refl.
  - unfold request in Hreq0.
    destruct (decide (rid0 = request_id)) as [<-|Hne].
    + rewrite lookup_insert_eq. intros [= <-].
      assert (req0 = req) as -> by (by congruence).
      apply with_status_same_content.
    + rewrite lookup_insert_ne, Hreq by done. intros [= <-].
      apply same_content_refl.
  - intros Hr. apply lookup_delete_Some in Hr as [_ Hr].
    assert (req' = req) as -> by (by congruence). apply same_content_refl.
Qed.

Lemma request_content_immutable_witness :
  same_content (sample.house_request "pending" 100)
               (sample.house_request "cancelled" 200).
Proof.
  apply (request_content_immutable sample.db_created
           (workflow_call (cancel 1 sample.alice 200)) 1);
    vm_compute; reflexivity.
Defined.

(** X4. A request disappears only through DELETE by its owner, and only
    when it is neither in_review nor completed and has no audit row. *)
Theorem request_removed_only_by_owner_delete
    (db : DB) (c : call) (request_id : Z) (req : models.ConsultationRequest) :
  request db request_id = Some req →
  request (apply_call db c) request_id = None →
  c = delete_call request_id (caller c)
  ∧ models.user_id req = models.id (caller c)
  ∧ (models.status req ∉ ["in_review"; "completed"])
  ∧ logs_of request_id db = [].
Proof.
  intros Hreq. unfold request in *.
  destruct (call_effect db c)
    as [c|payload owner now new_req Hown Hst Hc Hu Hval
       |rid0 requester now req0 Hreq0 Hown Hst
       |rid0 advisor now req0 s Hrole Hreq0
       |rid0 requester req0 Hreq0 Hown Hst Hlogs]; cbn.
  - congruence.
  - destruct (decide (next_id (request_ids db) = request_id)) as [<-|Hne].
    + by rewrite lookup_insert_eq.
    + rewrite lookup_insert_ne by done. congruence.
  - destruct (decide (rid0 = request_id)) as [<-|Hne].
    + by rewrite lookup_insert_eq.
    + rewrite lookup_insert_ne by done. congruence.
  - destruct (decide (rid0 = request_id)) as [<-|Hne].
    + by rewrite lookup_insert_eq.
    + rewrite lookup_insert_ne by done. congruence.
  - unfold request in Hreq0.
    destruct (decide (rid0 = request_id)) as [<-|Hne].
    + intros _. assert (req0 = req) as -> by (by congruence). done.
    + rewrite lookup_delete_ne by done. congruence.
Qed.

Lemma request_removed_only_by_owner_delete_witness :
  delete_call 1 sample.alice = delete_call 1 sample.alice
  ∧ models.user_id (sample.house_request "pending" 100) = 1
  ∧ ("pending" ∉ ["in_review"; "completed"])
  ∧ logs_of 1 sample.db_created = [].
Proof.
  apply (request_removed_only_by_owner_delete sample.db_created
           (delete_call 1 sample.alice) 1 (sample.house_request "pending" 100));
    vm_compute; reflexivity.
Defined.

(** X5. Work an advisor has taken on is out of the client's reach: while a
    request is in_review or completed, no call by a user who is neither
    advisor nor admin changes the request or its audit trail, whichever
    route and arguments the user tries. *)
Theorem client_cannot_touch_claimed_request
    (db : DB) (c : call) (request_id : Z) (req : models.ConsultationRequest) :
  is_advisor (caller c) = false →
  request db request_id = Some req →
  models.status req ∈ ["in_review"; "completed"] →
  request (apply_call db c) request_id = Some req
  ∧ logs_of request_id (apply_call db c) = logs_of request_id db.
Proof.
  intros Hrole Hreq Hblk. unfold request in *.
  destruct (call_effect db c)
    as [c|payload owner now new_req Hown Hst Hc Hu Hval
       |rid0 requester now req0 Hreq0 Hown Hst
       |rid0 advisor now req0 s Hrole0 Hreq0
       |rid0 requester req0 Hreq0 Hown Hst Hlogs];
    cbn [caller] in Hrole;
    unfold session.set_status_and_log, session.add_request;
    cbn [snd consultation_requests].
  - done.
  - pose proof (next_id_fresh db) as Hfresh. unfold request in Hfresh.
    rewrite lookup_insert_ne by congruence. done.
  - unfold request in Hreq0.
    assert (rid0 ≠ request_id) as Hne.
    { intros ->. assert (req0 = req) as -> by (by congruence).
      apply Hst. apply elem_of_cons in Hblk as [->|Hblk]; [by left|].
      apply list_elem_of_singleton in Hblk as ->. right. by left. }
    rewrite lookup_insert_ne by done. split; [done|].
    rewrite logs_of_snoc. cbn [models.request_id].
    rewrite decide_False by done. by rewrite app_nil_r.
  - congruence.
  - unfold request in Hreq0.
    assert (rid0 ≠ request_id) as Hne.
    { intros ->. assert (req0 = req) as -> by (by congruence). done. }
    by rewrite lookup_delete_ne.
Qed.

Lemma client_cannot_touch_claimed_request_witness :
  request (apply_call sample.db_in_review (delete_call 1 sample.alice)) 1
    = Some (sample.house_request "in_review" 200)
  ∧ logs_of 1 (apply_call sample.db_in_review (delete_call 1 sample.alice))
    = logs_of 1 sample.db_in_review.
Proof.
  apply (client_cannot_touch_claimed_request sample.db_in_review
           (delete_call 1 sample.alice) 1).
  - reflexivity.
  - vm_compute. reflexivity.
  - left.
Defined.

(** X6. A user who is neither advisor nor admin can change the status of a
    request in one way only: to cancelled, and only on a request of their
    own. *)
Theorem client_can_only_cancel_own_request
    (db : DB) (c : call) (request_id : Z)
    (req req' : models.ConsultationRequest) :
  is_advisor (caller c) = false →
  request db request_id = Some req →
  request (apply_call db c) request_id = Some req' →
  models.status req' ≠ models.status req →
  models.status req' = "cancelled"
  ∧ models.user_id req = models.id (caller c).
Proof.
  intros Hrole Hreq. unfold request in *.
  destruct (call_effect db c)
    as [c|payload owner now new_req Hown Hst Hc Hu Hval
       |rid0 requester now req0 Hreq0 Hown Hst
       |rid0 advisor now req0 s Hrole0 Hreq0
       |rid0 requester req0 Hreq0 Hown Hst Hlogs];
    cbn [caller] in Hrole |- *;
    unfold session.set_status_and_log, session.add_request;
    cbn [snd consultation_requests].
  - congruence.
  - pose proof (next_id_fresh db) as Hfresh. unfold request in Hfresh.
    rewrite lookup_insert_ne by congruence. congruence.
  - unfold request in Hreq0.
    destruct (decide (rid0 = request_id)) as [<-|Hne].
    + rewrite lookup_insert_eq. intros [= <-] _.
      assert (req0 = req) as -> by (by congruence).
      by rewrite with_status_status.
    + rewrite lookup_insert_ne by done. congruence.
  - congruence.
  - intros Hr. apply lookup_delete_Some in Hr as [_ Hr]. congruence.
Qed.

Lemma client_can_only_cancel_own_request_witness :
  models.status (sample.house_request "cancelled" 200) = "cancelled"
  ∧ models.user_id (sample.house_request "pending" 100) = models.id sample.alice.
Proof.
  apply (client_can_only_cancel_own_request sample.db_created
           (workflow_call (cancel 1 sample.alice 200)) 1).
  - reflexivity.
  - vm_compute. reflexivity.
  - vm_compute. reflexivity.
  - discriminate.
Defined.

(** ** The audit table as a whole *)

Lemma next_id_above (ks : list Z) : Forall (λ k, k < next_id ks) ks ∧ 1 ≤ next_id ks.
Proof.
  assert (0 ≤ foldr Z.max 0 ks) as Hpos.
  { induction ks as [|k ks IH]; cbn [foldr]; lia. }
  split.
  - apply Forall_forall. intros k Hk. apply foldr_max_ge in Hk.
    unfold next_id. lia.
  - unfold next_id. lia.
Qed.

(** X7. In every reachable state the primary keys of the audit table are
    positive and strictly increasing in the order the rows were written; in
    particular no two audit rows share a key. *)
Theorem audit_keys_increase (us : list models.User) (db : DB) :
  reachable us db →
  StronglySorted Z.lt (log_ids db) ∧ Forall (λ k, 1 ≤ k) (log_ids db)
  ∧ NoDup (log_ids db).
Proof.
  intros Hreach.
  assert (StronglySorted Z.lt (log_ids db) ∧ Forall (λ k, 1 ≤ k) (log_ids db))
    as [Hs Hp].
  { assert (∀ db c db', effect db c db' →
              StronglySorted Z.lt (log_ids db) ∧ Forall (λ k, 1 ≤ k) (log_ids db) →
              StronglySorted Z.lt (log_ids db') ∧ Forall (λ k, 1 ≤ k) (log_ids db'))
      as Hstep.
    { clear. intros db c db' He [Hs Hp].
      assert (StronglySorted Z.lt (log_ids db ++ [next_id (log_ids db)])
              ∧ Forall (λ k, 1 ≤ k) (log_ids db ++ [next_id (log_ids db)])) as Hsnoc.
      { destruct (next_id_above (log_ids db)) as [Hlt Hge]. split.
        - apply StronglySorted_app_2; [|done|repeat constructor].
          intros x1 x2 Hx1 Hx2. apply list_elem_of_singleton in Hx2 as ->.
          rewrite Forall_forall in Hlt. by apply Hlt.
        - apply Forall_app. split; [done|]. by repeat constructor. }
      destruct He; unfold log_ids in *; cbn; rewrite ?fmap_app; done. }
    induction Hreach as [|db o _ IH|db rid u _ IH].
    - split; constructor.
    - exact (Hstep _ _ _ (call_effect db (workflow_call o)) IH).
    - exact (Hstep _ _ _ (call_effect db (delete_call rid u)) IH). }
  repeat split; try done.
  clear Hp. induction Hs as [|k ks Hs IH Hk]; constructor; [|done].
  intros Hin. rewrite Forall_forall in Hk. specialize (Hk _ Hin). lia.
Qed.

Lemma audit_keys_increase_witness :
  StronglySorted Z.lt (log_ids sample.db_in_review)
  ∧ Forall (λ k, 1 ≤ k) (log_ids sample.db_in_review)
  ∧ NoDup (log_ids sample.db_in_review).
Proof.
  apply (audit_keys_increase [sample.alice; sample.bob; sample.carla]).
  apply reachable_db_in_review.
Defined.

Lemma chained_snoc (prev : string) (ls : list models.ConsultationRequestStatusLog)
    (l : models.ConsultationRequestStatusLog) :
  chained prev ls →
  models.old_status l = Some (from_option models.new_status prev (last ls)) →
  chained prev (ls ++ [l]).
Proof.
  revert prev. induction ls as [|l0 ls IH]; intros prev; cbn [chained app].
  - cbn. by intros _ ->.
  - intros [Hold Hrest] Hl. split; [done|]. apply IH; [done|].
    rewrite Hl. f_equal. destruct ls as [|l1 ls']; [done|].
    rewrite last_cons_cons.
    destruct (last (l1 :: ls')) eqn:E; [done|]. by apply last_None in E.
Qed.

(** X8. In every reachable state the audit trail of each request is a chain
    that starts at pending: the old_status of the first row is pending and
    the old_status of every later row is the new_status of the row before
    it. *)
Theorem audit_trail_is_a_chain (us : list models.User) (db : DB) (request_id : Z) :
  reachable us db →
  chained "pending" (logs_of request_id db).
Proof.
  intros Hreach. revert request_id.
  assert (∀ db c db', effect db c db' → consistent db →
            (∀ rid, chained "pending" (logs_of rid db)) →
            ∀ rid, chained "pending" (logs_of rid db')) as Hstep.
  { clear. intros db c db' He [Hfk Hrec] IH rid.
    assert (∀ rid0 req by_user v now,
      request db rid0 = Some req →
      chained "pending" (logs_of rid
        (session.set_status_and_log rid0 req v by_user
           (models.status req) v now db).2)) as Hwrite.
    { intros rid0 req by_user v now Hreq.
      unfold session.set_status_and_log. cbn [snd].
      rewrite logs_of_snoc. cbn [models.request_id].
      destruct (decide (rid0 = rid)) as [<-|Hne];
        [|rewrite app_nil_r; apply IH].
      apply chained_snoc; [apply IH|]. cbn [models.old_status]. f_equal.
      specialize (Hrec _ _ Hreq). unfold agrees_with_log, latest_log in Hrec.
      by destruct (last (logs_of rid0 db)). }
    destruct He; try apply IH; try by apply Hwrite. }
  induction Hreach as [|db o Hr IH|db rid u Hr IH]; intros request_id.
  - exact I.
  - exact (Hstep _ _ _ (call_effect db (workflow_call o))
             (reachable_consistent us db Hr) IH request_id).
  - exact (Hstep _ _ _ (call_effect db (delete_call rid u))
             (reachable_consistent us db Hr) IH request_id).
Qed.

Lemma audit_trail_is_a_chain_witness :
  chained "pending" (logs_of 1 sample.db_in_review).
Proof.
  apply (audit_trail_is_a_chain [sample.alice; sample.bob; sample.carla]).
  apply reachable_db_in_review.
Defined.

(** ** The read routes *)



Lemma changed_desc_transitive : Transitive session.changed_desc.
Proof. intros a b c. unfold session.changed_desc. lia. Qed.

Lemma changed_desc_total : Total session.changed_desc.
Proof. intros a b. unfold session.changed_desc. lia. Qed.







(** X11. GET /requests/{id}/history succeeds exactly when the request exists
    and the caller is its owner, an advisor or an admin; it writes nothing
    in any case. *)
Theorem history_access
    (request_id : Z) (current_user : models.User) (db : DB) :
  (get_request_history request_id current_user db).2 = db
  ∧ ((∃ logs, (get_request_history request_id current_user db).1 = Ok logs) ↔
     ∃ req, request db request_id = Some req
            ∧ (is_advisor current_user = true
               ∨ models.user_id req = models.id current_user)).
Proof.
  unfold get_request_history, bind, session.request_by_id, query, request,
    raise, is_advisor.
  destruct (consultation_requests db !! request_id) as [req|] eqn:Hreq.
  - destruct (pystr.in_tuple _ _) eqn:Hrole; cbn [negb andb fst snd].
    + split; [done|]. split; [|by eauto]. intros _. exists req. by split; [|left].
    + destruct (models.user_id req =? models.id current_user) eqn:Hown;
        cbn [negb fst snd]; (split; [done|]).
      * apply Z.eqb_eq in Hown. split; [|by eauto]. intros _. exists req.
        by split; [|right].
      * apply Z.eqb_neq in Hown. split; [by intros [? ?]|].
        intros (req0 & [= <-] & [?|?]); done.
  - cbn. split; [done|]. split; [by intros [? ?]|]. by intros (? & ? & _).
Qed.

(** X12. The history a caller receives is the audit trail of that request and
    nothing else: it holds exactly the audit rows whose request_id is the
    requested id, each as often as the table does, in non-increasing order
    of changed_at. *)
Theorem history_is_the_sorted_audit_trail
    (request_id : Z) (current_user : models.User) (db : DB)
    (logs : list models.ConsultationRequestStatusLog) :
  (get_request_history request_id current_user db).1 = Ok logs →
  logs ≡ₚ logs_of request_id db
  ∧ Forall (λ l, models.request_id l = request_id) logs
  ∧ StronglySorted (λ a b, models.changed_at b ≤ models.changed_at a) logs.
Proof.
  unfold get_request_history, bind, session.request_by_id, query, raise.
  destruct (consultation_requests db !! request_id) as [req|]; [|done].
  destruct (_ && _); [done|]. cbn [fst]. intros [= <-].
  unfold session.order_by_changed_at_desc.
  split; [apply merge_sort_Permutation|]. split.
  - apply Forall_forall. intros l. rewrite merge_sort_Permutation.
    unfold logs_of. rewrite list_elem_of_filter. by intros [? _].
  - apply (@StronglySorted_merge_sort _ session.changed_desc _
             changed_desc_transitive changed_desc_total).
Qed.

Lemma history_is_the_sorted_audit_trail_witness :
  ∃ logs,
    (get_request_history 1 sample.alice sample.db_in_review).1 = Ok logs
    ∧ logs ≡ₚ logs_of 1 sample.db_in_review
    ∧ Forall (λ l, models.request_id l = 1) logs
    ∧ StronglySorted (λ a b, models.changed_at b ≤ models.changed_at a) logs.
Proof.
  eexists. split; [vm_compute; reflexivity|].
  apply (history_is_the_sorted_audit_trail 1 sample.alice sample.db_in_review).
  vm_compute. reflexivity.
Defined.

(** X13. The two advisor routes are closed to everybody else before anything
    is looked at: for a caller who is neither advisor nor admin, GET
    /requests and PATCH /requests/{id} answer 403 whatever the parameters,
    valid or not, and whether or not the request exists, and write
    nothing. *)
Theorem advisor_routes_closed_to_clients
    (current_user : models.User) (db : DB) :
  is_advisor current_user = false →
  (∀ status q skip limit,
     list_all_requests status q skip limit current_user db
       = (Raise (HTTPException 403 "Non autorizzato."), db))
  ∧ (∀ request_id payload now,
       update_request_status request_id payload current_user now db
         = (Raise (HTTPException 403 "Non autorizzato."), db)).
Proof.
  intros Hrole. unfold is_advisor in Hrole.
  split; intros; unfold list_all_requests, update_request_status, bind,
    deps.require_advisor; by rewrite Hrole.
Qed.

Lemma advisor_routes_closed_to_clients_witness :
  list_all_requests (Some "nonsense") None (-1) 0 sample.bob sample.db_created
    = (Raise (HTTPException 403 "Non autorizzato."), sample.db_created)
  ∧ update_request_status 7 "nonsense" sample.bob 300 sample.db_created
    = (Raise (HTTPException 403 "Non autorizzato."), sample.db_created).
Proof.
  destruct (advisor_routes_closed_to_clients sample.bob sample.db_created eq_refl)
    as [Hlist Hpatch].
  split; [apply Hlist|apply Hpatch].
Defined.

(** ** The advisor listing, page by page *)








(** X16. For an advisor or admin, GET /requests answers 422 and writes
    nothing when skip is negative or limit is outside 1..200. *)
Theorem list_all_requests_rejects_bad_page
    (status q : option string) (skip limit : Z) (advisor : models.User) (db : DB) :
  is_advisor advisor = true →
  skip < 0 ∨ limit < 1 ∨ 200 < limit →
  list_all_requests status q skip limit advisor db
    = (Raise RequestValidationError, db).
Proof.
  intros Hrole Hbad. unfold list_all_requests, bind.
  rewrite (require_advisor_ok _ _ Hrole).
  destruct (match status with
            | Some v => Some <$> models.RequestStatusEnum_of v
            | None => Some None
            end); [|done].
  assert ((0 <=? skip) && (1 <=? limit) && (limit <=? 200) = false) as ->; [|done].
  rewrite !andb_false_iff, !Z.leb_gt. lia.
Qed.

Lemma list_all_requests_rejects_bad_page_witness :
  list_all_requests None None 0 201 sample.carla sample.db_created
    = (Raise RequestValidationError, sample.db_created).
Proof.
  apply list_all_requests_rejects_bad_page; [reflexivity|lia].
Defined.

(** X17. A search text that is empty or all whitespace is no filter: the
    listing answers as if q had not been sent. *)
Theorem list_all_requests_blank_search
    (status : option string) (q : string) (skip limit : Z)
    (current_user : models.User) (db : DB) :
  pystr.strip q = "" →
  list_all_requests status (Some q) skip limit current_user db
    = list_all_requests status None skip limit current_user db.
Proof.
  intros Hblank.
  assert (∀ st, list_all_query st (Some q) db = list_all_query st None db) as Hq.
  { intros st. unfold list_all_query. rewrite Hblank. cbn [pystr.truthy].
    by rewrite andb_false_r. }
  unfold list_all_requests, bind, deps.require_advisor.
  destruct (negb (pystr.in_tuple _ _)); [done|]. unfold ret.
  destruct (match status with
            | Some v => Some <$> models.RequestStatusEnum_of v
            | None => Some None
            end) as [st|]; [|done].
  destruct (negb _); [done|]. unfold query.
  by rewrite !Hq.
Qed.

Lemma list_all_requests_blank_search_witness :
  list_all_requests (Some "pending") (Some "   ") 0 25 sample.carla
    sample.db_created
  = list_all_requests (Some "pending") None 0 25 sample.carla sample.db_created.
Proof. apply list_all_requests_blank_search. reflexivity. Defined.

(** ** The search text as a pattern *)

Lemma append_nil_l (s : string) : "" +:+ s = s.
Proof. reflexivity. Qed.

Lemma append_cons (c : ascii) (a b : string) :
  String c a +:+ b = String c (a +:+ b).
Proof. reflexivity. Qed.

Lemma append_nil_r (s : string) : s +:+ "" = s.
Proof. induction s as [|c s IH]; [done|]. by rewrite append_cons, IH. Qed.

Lemma like_percent (p s : string) :
  sql.like (String "%" p) s =
    sql.like p s
    || match s with
       | EmptyString => false
       | String _ t => sql.like (String "%" p) t
       end.
Proof. by destruct s. Qed.

(** [%] followed by a pattern matches a text exactly when the pattern matches
    one of its suffixes. *)
Lemma like_percent_suffix (p s : string) :
  sql.like (String "%" p) s = true ↔ ∃ s1 s2, s = s1 +:+ s2 ∧ sql.like p s2 = true.
Proof.
  induction s as [|c s IH]; rewrite like_percent, orb_true_iff.
  - split.
    + intros [H|H]; [|done]. by exists "", "".
    + intros (s1 & s2 & Hs & H). left.
      destruct s1; [|done]. rewrite append_nil_l in Hs. by subst.
  - rewrite IH. split.
    + intros [H|(s1 & s2 & -> & H)].
      * by exists "", (String c s).
      * by exists (String c s1), s2.
    + intros (s1 & s2 & Hs & H). destruct s1 as [|c1 s1].
      * rewrite append_nil_l in Hs. left. by subst.
      * rewrite append_cons in Hs. injection Hs as -> ->. right.
        by exists s1, s2.
Qed.


Lemma like_percent_all (s : string) : sql.like "%" s = true.
Proof. apply like_percent_suffix. exists s, "". by rewrite append_nil_r. Qed.








(** X19. The search text is not escaped: a text that trims to [%] selects
    every request that has an owner row, whatever its goal, notes and
    status. *)
Theorem list_all_search_percent_selects_all
    (status : option models.RequestStatusEnum) (q : string) (db : DB)
    (r : Z * models.ConsultationRequest) :
  pystr.strip q = "%" →
  r ∈ list_all_query status (Some q) db ↔
  request db r.1 = Some r.2 ∧ is_Some (user_of db r.2).
Proof.
  intros Hq.
  assert (pystr.truthy q = true) as Htruthy.
  { destruct q; [by vm_compute in Hq|done]. }
  unfold list_all_query. rewrite Htruthy, Hq. cbn [pystr.truthy andb].
  rewrite list_elem_of_filter.
  assert (r ∈ map_to_list (consultation_requests db) ↔ request db r.1 = Some r.2)
    as -> by (destruct r; apply elem_of_map_to_list).
  unfold matches_search.
  destruct (user_of db r.2) as [owner|].
  - assert (sql.ilike (Some (models.goal r.2)) ("%" +:+ "%" +:+ "%") = true) as ->.
    { cbn [sql.ilike]. apply like_percent_suffix.
      exists "", (sql.lower (models.goal r.2)). split; [done|].
      apply like_percent_suffix.
      exists "", (sql.lower (models.goal r.2)). split; [done|].
      apply like_percent_all. }
    cbn [orb]. split; [intros [_ ?]|intros [? _]]; by eauto.
  - split; [by intros [? _]|]. by intros [_ [? ?]].
Qed.

Lemma list_all_search_percent_selects_all_witness :
  (1, sample.house_request "pending" 100)
    ∈ list_all_query (Some models.completed) (Some "%") sample.db_created.
Proof.
  apply (list_all_search_percent_selects_all (Some models.completed) "%"
           sample.db_created (1, sample.house_request "pending" 100)).
  - reflexivity.
  - split; [vm_compute; reflexivity|]. by exists sample.alice.
Defined.

(** ** Trimming *)

Lemma append_assoc (a b c : string) : (a +:+ b) +:+ c = a +:+ (b +:+ c).
Proof.
  induction a as [|x a IH]; [done|]. by rewrite !append_cons, IH.
Qed.

Lemma rev_onto_append (s acc : string) :
  pystr.rev_onto s acc = pystr.reverse s +:+ acc.
Proof.
  unfold pystr.reverse. revert acc.
  induction s as [|c s IH]; intros acc; [done|]. cbn [pystr.rev_onto].
  rewrite (IH (String c acc)), (IH (String c "")).
  by rewrite append_assoc, append_cons, append_nil_l.
Qed.

Lemma reverse_cons (c : ascii) (s : string) :
  pystr.reverse (String c s) = pystr.reverse s +:+ String c "".
Proof. unfold pystr.reverse at 1. cbn [pystr.rev_onto]. apply rev_onto_append. Qed.

Lemma reverse_snoc (c : ascii) (s : string) :
  pystr.reverse (s +:+ String c "") = String c (pystr.reverse s).
Proof.
  induction s as [|d s IH]; [done|].
  by rewrite append_cons, !reverse_cons, IH, append_cons.
Qed.

Lemma reverse_involutive (s : string) : pystr.reverse (pystr.reverse s) = s.
Proof.
  induction s as [|c s IH]; [done|]. by rewrite reverse_cons, reverse_snoc, IH.
Qed.

Lemma lstrip_idempotent (s : string) :
  pystr.lstrip (pystr.lstrip s) = pystr.lstrip s.
Proof.
  induction s as [|c s IH]; [done|]. cbn [pystr.lstrip].
  destruct (pystr.isspace c) eqn:E; [done|]. cbn [pystr.lstrip]. by rewrite E.
Qed.

(** Stripping on the left keeps a last character that is not whitespace. *)
Lemma lstrip_snoc (s : string) (c : ascii) :
  pystr.isspace c = false →
  ∃ t, pystr.lstrip (s +:+ String c "") = t +:+ String c "".
Proof.
  intros Hc. induction s as [|d s [t IH]].
  - exists "". rewrite append_nil_l. cbn [pystr.lstrip]. by rewrite Hc.
  - rewrite append_cons. cbn [pystr.lstrip]. destruct (pystr.isspace d).
    + by exists t.
    + exists (String d s). by rewrite append_cons.
Qed.

(** Stripping on the right keeps a text stripped on the left. *)
Lemma lstrip_rstrip (s : string) :
  pystr.lstrip s = s → pystr.lstrip (pystr.rstrip s) = pystr.rstrip s.
Proof.
  intros Hs. destruct s as [|c s]; [done|].
  assert (pystr.isspace c = false) as Hc.
  { cbn [pystr.lstrip] in Hs. destruct (pystr.isspace c) eqn:E; [|done].
    exfalso. clear -Hs.
    assert (∀ t, String.length (pystr.lstrip t) ≤ String.length t)%nat as Hlen.
    { induction t as [|d t IH]; [done|]. cbn [pystr.lstrip].
      destruct (pystr.isspace d); cbn [String.length] in *; lia. }
    specialize (Hlen s). rewrite Hs in Hlen. cbn [String.length] in Hlen. lia. }
  unfold pystr.rstrip. rewrite reverse_cons.
  destruct (lstrip_snoc (pystr.reverse s) c Hc) as [t ->].
  rewrite reverse_snoc. cbn [pystr.lstrip]. by rewrite Hc.
Qed.

Lemma strip_idempotent (s : string) : pystr.strip (pystr.strip s) = pystr.strip s.
Proof.
  unfold pystr.strip.
  rewrite (lstrip_rstrip (pystr.lstrip s)) by apply lstrip_idempotent.
  unfold pystr.rstrip. by rewrite reverse_involutive, lstrip_idempotent.
Qed.

(** ** Creation *)




(** X22. The search text is trimmed before it is used: sending q with
    whitespace around it gives the response of sending the trimmed text. *)
Theorem list_all_requests_trims_search
    (status : option string) (q : string) (skip limit : Z)
    (current_user : models.User) (db : DB) :
  pystr.strip q ≠ "" →
  list_all_requests status (Some q) skip limit current_user db
    = list_all_requests status (Some (pystr.strip q)) skip limit current_user db.
Proof.
  intros Hblank.
  assert (∀ st, list_all_query st (Some q) db
                = list_all_query st (Some (pystr.strip q)) db) as Hq.
  { intros st. unfold list_all_query. rewrite strip_idempotent.
    assert (pystr.truthy q = true) as ->.
    { destruct q; [by vm_compute in Hblank|done]. }
    destruct (pystr.strip q); done. }
  unfold list_all_requests, bind, deps.require_advisor.
  destruct (negb (pystr.in_tuple _ _)); [done|]. unfold ret.
  destruct (match status with
            | Some v => Some <$> models.RequestStatusEnum_of v
            | None => Some None
            end) as [st|]; [|done].
  destruct (negb _); [done|]. unfold query.
  by rewrite !Hq.
Qed.

Lemma list_all_requests_trims_search_witness :
  list_all_requests None (Some "  casa ") 0 25 sample.carla sample.db_created
  = list_all_requests None (Some (pystr.strip "  casa ")) 0 25 sample.carla
      sample.db_created.
Proof. apply list_all_requests_trims_search. discriminate. Defined.

(** ** Cancel, from call to outcome *)

(** X23. PATCH /requests/me/{id} succeeds exactly when the request exists,
    belongs to the caller and is neither in_review nor completed.  It then
    reports the status the request had as old_status and cancelled as
    new_status, and the request is cancelled afterwards. *)
Theorem cancel_my_request_outcome
    (request_id : Z) (current_user : models.User) (now : Z) (db : DB) :
  (∀ out,
     (cancel_my_request request_id current_user now db).1 = Ok out ↔
     ∃ req, request db request_id = Some req
            ∧ models.user_id req = models.id current_user
            ∧ (models.status req ∉ ["in_review"; "completed"])
            ∧ out = {| ok := true; old_status := models.status req;
                       new_status := "cancelled" |})
  ∧ ∀ out,
      (cancel_my_request request_id current_user now db).1 = Ok out →
      models.status <$>
        request (cancel_my_request request_id current_user now db).2 request_id
      = Some "cancelled".
Proof.
  unfold cancel_my_request, bind, session.request_by_id_and_owner, query,
    request, raise, ret.
  destruct (consultation_requests db !! request_id) as [req|] eqn:Hreq.
  2:{ cbn. split; [|done]. intros out. split; [done|]. by intros (? & ? & _). }
  destruct (models.user_id req =? models.id current_user) eqn:Hown.
  2:{ apply Z.eqb_neq in Hown. cbn. split; [|done]. intros out.
      split; [done|]. by intros (req0 & [= <-] & ? & _). }
  apply Z.eqb_eq in Hown.
  destruct (pystr.in_tuple _ _) eqn:Hblk.
  { cbn. split; [|done]. intros out. split; [done|].
    intros (req0 & [= <-] & _ & Hn & _). apply in_tuple_blocked in Hblk.
    exfalso. apply Hn. rewrite !elem_of_cons. tauto. }
  assert (models.status req ∉ ["in_review"; "completed"]) as Hn
    by (apply not_blocked; [done|apply not_elem_of_nil]).
  destruct (String.eqb _ _) eqn:Hc.
  - apply String.eqb_eq in Hc. cbn [fst snd]. split.
    + intros out. split.
      * intros [= <-]. exists req. repeat split; try done. by rewrite Hc.
      * intros (req0 & [= <-] & _ & _ & ->). by rewrite Hc.
    + intros out _. rewrite Hreq. cbn. by rewrite Hc.
  - unfold session.set_status_and_log. cbn [fst snd consultation_requests].
    split.
    + intros out. split.
      * intros [= <-]. by exists req.
      * by intros (req0 & [= <-] & _ & _ & ->).
    + intros out _. rewrite lookup_insert_eq. cbn.
      by rewrite with_status_status.
Qed.

(** ** The enumerations *)

(** X24. Reading a status or a risk profile from its text and writing it
    back are inverse to each other, for the two status enumerations and the
    risk profiles; so distinct members have distinct texts, and the status
    enumeration of the schemas and that of the models name the same four
    texts. *)
Theorem enumerations_round_trip :
  (∀ v s, schemas.RequestStatus_of v = Some s ↔ v = schemas.value s)
  ∧ (∀ v s, models.RequestStatusEnum_of v = Some s ↔ v = models.value s)
  ∧ (∀ v r, schemas.RiskProfile_of v = Some r ↔ v = schemas.RiskProfile_value r)
  ∧ (∀ s, models.RequestStatusEnum_of (schemas.value s)
            = Some (to_model_status s))
  ∧ (∀ v, is_Some (schemas.RequestStatus_of v)
          ↔ is_Some (models.RequestStatusEnum_of v)).
Proof.
  assert (∀ v s, schemas.RequestStatus_of v = Some s ↔ v = schemas.value s) as H1.
  { intros v s. split; [apply RequestStatus_of_Some|].
    intros ->. apply RequestStatus_of_value. }
  assert (∀ v s, models.RequestStatusEnum_of v = Some s ↔ v = models.value s)
    as H2.
  { intros v s. split; [|by intros ->; destruct s].
    unfold models.RequestStatusEnum_of. intros Hs.
    repeat (destruct (String.eqb v _) eqn:E;
            [apply String.eqb_eq in E; by injection Hs as <-|clear E]).
    done. }
  assert (∀ v r, schemas.RiskProfile_of v = Some r
                 ↔ v = schemas.RiskProfile_value r) as H3.
  { intros v r. split; [|by intros ->; destruct r].
    unfold schemas.RiskProfile_of. intros Hs.
    repeat (destruct (String.eqb v _) eqn:E;
            [apply String.eqb_eq in E; by injection Hs as <-|clear E]).
    done. }
  repeat split; try apply H1; try apply H2; try apply H3.
  - apply to_model_status_lookup.
  - intros [s Hs]. apply H1 in Hs as ->. rewrite to_model_status_lookup. eauto.
  - intros [s Hs]. apply H2 in Hs as ->. by destruct s; eexists.
Qed.

(** ** From one route to the next *)

(** X25. What create returns is what the owner reads back: after a
    successful POST /requests by a user whose row the users table holds,
    GET /requests/me/{id} with the returned id answers with the very
    response of the POST and writes nothing. *)
Theorem create_then_get_round_trip
    (payload : schemas.body) (owner : models.User) (now : Z) (db db' : DB) out :
  find (λ u, models.id u =? models.id owner) (users db) = Some owner →
  create_request payload owner now db = (Ok out, db') →
  get_my_request (schemas.out_id out) owner db' = (Ok out, db').
Proof.
  intros Huser. unfold create_request.
  destruct (schemas.validate_ConsultationRequestCreate payload) as [p|]; [|done].
  unfold bind, session.add_request, ret. intros [= <- <-].
  cbn [schemas.out_id _to_out].
  unfold get_my_request, bind, session.request_by_id, query.
  cbn [consultation_requests]. rewrite lookup_insert_eq.
  cbn [models.user_id]. rewrite Z.eqb_refl. cbn [negb].
  match goal with
  | |- context [user_of ?d ?r] =>
      replace (user_of d r) with (Some owner) by (symmetry; exact Huser)
  end.
  reflexivity.
Qed.

Lemma create_then_get_round_trip_witness :
  ∃ out db',
    create_request sample.house sample.alice 100 sample.db0 = (Ok out, db')
    ∧ get_my_request (schemas.out_id out) sample.alice db' = (Ok out, db').
Proof.
  do 2 eexists. split; [lazy; reflexivity|].
  apply (create_then_get_round_trip sample.house sample.alice 100 sample.db0);
    reflexivity.
Defined.

(** X26. A status patch shows up in the history at once: after a successful
    patch the history of the request, as an advisor or admin receives it,
    is the history from before plus exactly one row, which carries the
    request id, the advisor, the status before, the new status and the time
    of the patch. *)
Theorem patch_then_history
    (request_id : Z) (s : schemas.RequestStatus) (advisor : models.User)
    (now : Z) (db : DB) (req : models.ConsultationRequest) :
  is_advisor advisor = true →
  request db request_id = Some req →
  ∃ before after log,
    (get_request_history request_id advisor db).1 = Ok before
    ∧ (get_request_history request_id advisor
         (update_request_status request_id (schemas.value s) advisor now db).2).1
      = Ok after
    ∧ after ≡ₚ log :: before
    ∧ models.request_id log = request_id
    ∧ models.changed_by_user_id log = models.id advisor
    ∧ models.old_status log = Some (models.status req)
    ∧ models.new_status log = schemas.value s
    ∧ models.changed_at log = now.
Proof.
  intros Hrole Hreq.
  rewrite (update_request_status_eq request_id s advisor now db req Hrole Hreq).
  cbn [snd]. set (db' := {| users := users db |}).
  assert (request db' request_id
          = Some (session.with_status (schemas.value s) now req)) as Hreq'.
  { unfold request, db'. cbn. apply lookup_insert_eq. }
  rewrite (history_for_advisor request_id advisor db req Hreq Hrole).
  rewrite (history_for_advisor request_id advisor db' _ Hreq' Hrole).
  eexists _, _,
    {| models.log_id := next_id (log_ids db);
       models.request_id := request_id;
       models.changed_by_user_id := models.id advisor;
       models.old_status := Some (models.status req);
       models.new_status := schemas.value s;
       models.changed_at := now |}.
  split; [reflexivity|]. split; [reflexivity|].
  split; [|by repeat split].
  unfold session.order_by_changed_at_desc. rewrite !merge_sort_Permutation.
  unfold db'. rewrite logs_of_snoc. cbn [models.request_id].
  rewrite decide_True by done. by rewrite Permutation_app_comm.
Qed.

Lemma patch_then_history_witness :
  ∃ before after log,
    (get_request_history 1 sample.carla sample.db_created).1 = Ok before
    ∧ (get_request_history 1 sample.carla
         (update_request_status 1 "in_review" sample.carla 200
            sample.db_created).2).1 = Ok after
    ∧ after ≡ₚ log :: before
    ∧ models.request_id log = 1
    ∧ models.changed_by_user_id log = 3
    ∧ models.old_status log = Some "pending"
    ∧ models.new_status log = "in_review"
    ∧ models.changed_at log = 200.
Proof.
  apply (patch_then_history 1 schemas.in_review sample.carla 200
           sample.db_created (sample.house_request "pending" 100)).
  - reflexivity.
  - vm_compute. reflexivity.
Defined.

(** ** The profile of the logged-in user *)

Section profile_properties.

Context {date : Type} (isoformat : date → string).

Implicit Types (rows : list profile.ClientProfile) (u : models.User).

Lemma profile_of_user_id (owner_id : Z) rows p :
  profile.profile_of owner_id rows = Some p → profile.user_id p = owner_id.
Proof.
  unfold profile.profile_of. intros H. apply find_some in H as [_ H].
  by apply Z.eqb_eq.
Qed.



Lemma profile_of_unchanged_snoc (owner_id : Z) rows p :
  profile.user_id p ≠ owner_id →
  profile.profile_of owner_id (rows ++ [p]) = profile.profile_of owner_id rows.
Proof.
  intros Hne. unfold profile.profile_of.
  induction rows as [|r rows IH]; cbn.
  - apply Z.eqb_neq in Hne. by rewrite Hne.
  - by destruct (profile.user_id r =? owner_id).
Qed.



Lemma NoDup_key_inj rows (p p' : profile.ClientProfile) :
  NoDup (profile.id <$> rows) → p ∈ rows → p' ∈ rows →
  profile.id p = profile.id p' → p = p'.
Proof.
  induction rows as [|x rows IH]; [by intros _ ?%elem_of_nil|].
  rewrite fmap_cons, NoDup_cons. intros [Hx Hid] Hp Hp' E.
  apply elem_of_cons in Hp as [->|Hp], Hp' as [->|Hp']; try done.
  - exfalso. apply Hx. apply list_elem_of_fmap. exists p'. by rewrite E.
  - exfalso. apply Hx. apply list_elem_of_fmap. exists p. by rewrite E.
  - by apply IH.
Qed.

Lemma profile_of_replace_other (other key : Z) rows (new : profile.ClientProfile) :
  (∀ r, r ∈ rows → profile.id r = key → profile.user_id r ≠ other) →
  profile.user_id new ≠ other →
  profile.profile_of other
    ((λ row, if profile.id row =? key then new else row) <$> rows)
  = profile.profile_of other rows.
Proof.
  intros Hrows Hnew. unfold profile.profile_of.
  induction rows as [|r rows IH]; [done|]. rewrite fmap_cons. cbn [find].
  assert (find (λ p, profile.user_id p =? other)
            ((λ row, if profile.id row =? key then new else row) <$> rows)
          = find (λ p, profile.user_id p =? other) rows) as ->.
  { apply IH. intros r0 Hr0. apply Hrows. by right. }
  destruct (profile.id r =? key) eqn:E; [|done].
  apply Z.eqb_eq in E.
  assert (profile.user_id r ≠ other) as Hr by (apply Hrows; [by left|done]).
  apply Z.eqb_neq in Hr, Hnew. by rewrite Hr, Hnew.
Qed.

(** X29. The upsert of one user leaves the profile of every other user as it
    was, on a table whose keys are pairwise distinct. *)
Theorem upsert_leaves_other_profiles
    (profile_in : profile.ClientProfileCreateUpdate) u (now : Z) rows
    (other : Z) :
  NoDup (profile.id <$> rows) →
  other ≠ models.id u →
  profile.profile_of other
    (profile.upsert_my_profile isoformat profile_in u now rows).2
  = profile.profile_of other rows.
Proof.
  intros Hid Hne. unfold profile.upsert_my_profile.
  destruct (profile.profile_of (models.id u) rows) as [old|] eqn:Hold;
    cbn [snd].
  - pose proof (profile_of_user_id _ _ _ Hold) as Hu.
    unfold profile.profile_of in Hold. apply find_some in Hold as [Hin _].
    apply list_elem_of_In in Hin.
    apply profile_of_replace_other; [|cbn; congruence].
    intros r Hr E. rewrite (NoDup_key_inj rows r old Hid Hr Hin E). congruence.
  - apply profile_of_unchanged_snoc. cbn. congruence.
Qed.

End profile_properties.


Lemma upsert_leaves_other_profiles_witness :
  let body :=
    {| profile.in_first_name := "Alice"; profile.in_last_name := "Rossi";
       profile.in_date_of_birth := Some "1990-05-17";
       profile.in_phone := None; profile.in_income := Some 42000;
       profile.in_main_goal := None; profile.in_time_horizon_years := Some 10;
       profile.in_risk_profile := Some "equilibrato" |} in
  let rows := (profile.upsert_my_profile id body sample.bob 50 []).2 in
  profile.profile_of 2 (profile.upsert_my_profile id body sample.alice 60 rows).2
  = profile.profile_of 2 rows.
Proof.
  cbn zeta.
  apply (upsert_leaves_other_profiles id _ sample.alice 60
           (profile.upsert_my_profile id _ sample.bob 50 []).2 2).
  - vm_compute. repeat constructor; set_solver.
  - cbn. lia.
Defined.
